(** * IngressGatewayPortAnalyzer (galley/pkg/config/analysis/analyzers/gateway)

    A shallow embedding of [gateway.go] and the properties of its
    port cross-referencing algorithm.

    The Go code is imperative: it writes into a map through the variable
    [servicePorts], later re-points that variable at the package-level map
    [defaultIngressGatewayPorts], and sends its findings to a reporting sink.
    It is embedded in a state monad over a store of map objects (so that the
    aliasing of the two maps is visible) and the sink. *)

From stdpp Require Import base strings gmap list.
From Stdlib Require Import ZArith Lia.

Open Scope Z_scope.

(** ** Machine integers *)

(** [uint32(x)]: conversion of an integer to Go's [uint32] wraps modulo 2^32. *)
Definition uint32 (x : Z) : Z := x mod 2 ^ 32.

(** Go's [int] on a 64-bit target: two's complement wrap-around. *)
Definition int (x : Z) : Z := (x + 2 ^ 63) mod 2 ^ 64 - 2 ^ 63.

(** ** Resource payloads, one module per Go package *)

Module resource.
(** [resource.FullName] *)
Record FullName := { Namespace : string; Name : string }.
(** [resource.Metadata] (the field the analyzer reads) *)
Record Metadata := { FullName_ : FullName }.
(** [resource.Instance]; the payload [Message] is typed by its collection,
    so the type assertions of the source (on [r.Message], [rPod.Message]
    and [rSvc.Message]) always succeed. A field that shares its name with its type
    carries a trailing underscore. *)
Record Instance (A : Type) := { Metadata_ : Metadata; Message : A }.
Arguments Metadata_ {A} _.
Arguments Message {A} _.
End resource.

Module v1alpha3.
(** [v1alpha3.Port] *)
Record Port := { Number : Z (* uint32 *) }.
(** [v1alpha3.Server]; [Port] is a pointer, [None] is [nil]. *)
Record Server := { Port_ : option Port }.
(** [v1alpha3.Gateway]; the entries of [Servers] are the servers themselves
    (the decoder of the payload never leaves a [nil] entry in the slice). *)
Record Gateway := { Selector : gmap string string; Servers : list Server }.
End v1alpha3.

Module v1.
(** [v1.ObjectMeta] *)
Record ObjectMeta := { Namespace : string; Labels : gmap string string }.
(** [v1.Pod] *)
Record Pod := { ObjectMeta_ : ObjectMeta }.
(** [v1.ServicePort] *)
Record ServicePort := { Protocol : string; Port : Z (* int32 *) }.
(** [v1.ServiceSpec] *)
Record ServiceSpec := { Selector : gmap string string; Ports : list ServicePort }.
End v1.

(** ** Label selectors (k8s.io/apimachinery/pkg/labels) *)

Module k8s_labels.
(** The [labels.Selector] interface together with its constructor
    [SelectorFromSet]. The library is not part of the source file; the
    analyzer consumes it as a capability, and so do the theorems below,
    which hold for every implementation of it. *)
Class Selectors := {
  Selector : Type;
  SelectorFromSet : gmap string string → Selector;
  Matches : Selector → gmap string string → bool;
  String : Selector → string
}.
End k8s_labels.

(** ** Diagnostics *)

Module diag.
(** The two kinds of finding this analyzer produces. *)
Inductive MessageType :=
| ReferencedResourceNotFound
| GatewayPortNotOnWorkload.

(** A detail field of a message. *)
Inductive Detail :=
| PString (s : string)
| PInt (n : Z).

(** Modelled from the spec: the diagnostic handed to the reporting sink,
    whose declaration is not in the source file: "kind + originating
    resource + free-form detail fields". *)
Record Message := {
  Type_ : MessageType;
  Resource : resource.Instance v1alpha3.Gateway;
  Parameters_ : list Detail
}.
End diag.

Module msg.
(** Modelled from the spec: the two message constructors the analyzer
    calls, which are not in the source file. Each keeps the resource it is
    reported on and its arguments as detail fields. *)
Definition NewReferencedResourceNotFound
    (r : resource.Instance v1alpha3.Gateway) (reftype refval : string)
    : diag.Message :=
  {| diag.Type_ := diag.ReferencedResourceNotFound;
     diag.Resource := r;
     diag.Parameters_ := [diag.PString reftype; diag.PString refval] |}.

Definition NewGatewayPortNotOnWorkload
    (r : resource.Instance v1alpha3.Gateway) (selector : string) (port : Z)
    : diag.Message :=
  {| diag.Type_ := diag.GatewayPortNotOnWorkload;
     diag.Resource := r;
     diag.Parameters_ := [diag.PString selector; diag.PInt port] |}.
End msg.

Module collections.
(** Collection names (the [Name()] of the three input collections). *)
Inductive Name :=
| IstioNetworkingV1Alpha3Gateways
| K8SCoreV1Pods
| K8SCoreV1Services.
End collections.

Module analysis.
(** [analysis.Metadata] *)
Record Metadata := {
  Name : string;
  Description : string;
  Inputs : list collections.Name
}.
End analysis.

(** ** Store and monad *)

(** Address of a [map[uint32]bool] object. *)
Abbreviation Loc := positive.

(** What the program can observe and change: the map objects by address and
    the messages the sink has received, oldest first. *)
Record State := {
  heap : gmap Loc (gmap Z bool);
  sink : list (collections.Name * diag.Message)
}.

(** A computation: it returns a value and the store it leaves. Nothing in
    the analyzer can fail, so there is no error case. *)
Definition M (A : Type) : Type := State → A * State.

Definition ret {A} (a : A) : M A := λ st, (a, st).

Definition bind {A B} (m : M A) (k : A → M B) : M B :=
  λ st, let '(a, st') := m st in k a st'.

Notation "'let*' x ':=' m 'in' k" := (bind m (λ x, k))
  (at level 10, x name, m at level 200, k at level 200, only parsing).

(** [map[uint32]bool{}]: a new empty map at an unused address. *)
Definition newMap : M Loc :=
  λ st, let l := fresh (dom (heap st)) in
        (l, {| heap := <[l := ∅]> (heap st); sink := sink st |}).

(** [m[k] = v]. The analyzer only writes through [servicePorts] while it
    holds the address of the map allocated by [newMap]. *)
Definition mapStore (l : Loc) (k : Z) (v : bool) : M unit :=
  λ st, (tt, {| heap := alter (insert k v) l (heap st); sink := sink st |}).

(** [_, ok := m[k]]: whether [k] is a key of the map, whatever it maps to. *)
Definition mapHas (l : Loc) (k : Z) : M bool :=
  λ st, (match heap st !! l with
         | Some m => bool_decide (is_Some (m !! k))
         | None => false
         end, st).

(** ** The analysis context *)

(** The snapshot behind [analysis.Context]: the resources of the three
    input collections, in iteration order. *)
Record Context := {
  Gateways : list (resource.Instance v1alpha3.Gateway);
  Pods : list (resource.Instance v1.Pod);
  Services : list (resource.Instance v1.ServiceSpec)
}.

(** Modelled from the spec: [analysis.Context.ForEach], which is not in the
    source file. It invokes the visitor once per resource of the collection,
    in a stable order, and stops early if the visitor signals stop. The
    visitor is a closure: the local variables it assigns are threaded through
    as [vars]. *)
Fixpoint ForEach {A V} (xs : list A) (fn : A → V → M (bool * V)) (vars : V) : M V :=
  match xs with
  | [] => ret vars
  | x :: xs' =>
      let* r := fn x vars in
      if r.1 then ForEach xs' fn r.2 else ret r.2
  end.

(** Modelled from the spec: [analysis.Context.Report], which is not in the
    source file. It attaches the diagnostic to the run and returns nothing. *)
Definition Report (n : collections.Name) (m : diag.Message) : M unit :=
  λ st, (tt, {| heap := heap st; sink := sink st ++ [(n, m)] |}).

(** [for _, x := range xs { body }] *)
Fixpoint forRange {A} (xs : list A) (body : A → M unit) : M unit :=
  match xs with
  | [] => ret tt
  | x :: xs' => let* _ := body x in forRange xs' body
  end.

(** ** The analyzer *)

(** The package-level variable [defaultIngressGatewayPorts] holds the address
    of a map built when the package is initialised; the variable is never
    assigned to. *)
Definition defaultIngressGatewayPorts : Loc := 1%positive.

(** The contents of that map as the package initialiser builds it. *)
Definition defaultIngressGatewayPorts_init : gmap Z bool :=
  <[80 := true]> (<[443 := true]> (<[31400 := true]> (<[15443 := true]> ∅))).

(** The store after package initialisation, with nothing reported yet. *)
Definition init_state : State :=
  {| heap := {[ defaultIngressGatewayPorts := defaultIngressGatewayPorts_init ]};
     sink := [] |}.

(** [Metadata] *)
Definition Metadata : analysis.Metadata :=
  {| analysis.Name := "gateway.IngressGatewayPortAnalyzer";
     analysis.Description :=
       "Checks a gateway's ports against the gateway's Kubernetes service ports";
     analysis.Inputs := [collections.IstioNetworkingV1Alpha3Gateways;
                         collections.K8SCoreV1Pods;
                         collections.K8SCoreV1Services] |}.

Section Analyzer.
Context `{k8s_labels.Selectors}.

(** The closure passed to [c.ForEach(K8SCoreV1Services, ...)]. It captures
    [servicePorts], [pod] and [podLabels] and assigns no local variable. *)
Definition visitService (servicePorts : Loc) (pod : v1.Pod)
    (podLabels : gmap string string)
    (rSvc : resource.Instance v1.ServiceSpec) (_ : unit) : M (bool * unit) :=
  let nsSvc := resource.Namespace (resource.FullName_ (resource.Metadata_ rSvc)) in
  if negb (String.eqb nsSvc (v1.Namespace (v1.ObjectMeta_ pod))) then
    ret (true, tt)
  else
    let service := resource.Message rSvc in
    let svcSelector := k8s_labels.SelectorFromSet (v1.Selector service) in
    let* _ :=
      if k8s_labels.Matches svcSelector podLabels then
       forRange (v1.Ports service) (λ port,
         if String.eqb (v1.Protocol port) "TCP" then
           mapStore servicePorts (uint32 (v1.Port port)) true
         else ret tt)
      else ret tt in
    ret (true, tt).

(** The closure passed to [c.ForEach(K8SCoreV1Pods, ...)]. It captures
    [servicePorts] and [gwSelector], and increments [gwSelectorMatches]. *)
Definition visitPod (c : Context) (servicePorts : Loc)
    (gwSelector : k8s_labels.Selector)
    (rPod : resource.Instance v1.Pod) (gwSelectorMatches : Z) : M (bool * Z) :=
  let pod := resource.Message rPod in
  let podLabels := v1.Labels (v1.ObjectMeta_ pod) in
  if k8s_labels.Matches gwSelector podLabels then
    let gwSelectorMatches := int (gwSelectorMatches + 1) in
    let* _ := ForEach (Services c) (visitService servicePorts pod podLabels) tt in
    ret (true, gwSelectorMatches)
  else ret (true, gwSelectorMatches).

(** First phase of [analyzeGateway]: allocate [servicePorts], scan the pods
    and the services. Returns the address in [servicePorts] and the value
    of [gwSelectorMatches]. *)
Definition discoverServicePorts (r : resource.Instance v1alpha3.Gateway)
    (c : Context) : M (Loc * Z) :=
  let gw := resource.Message r in
  let* servicePorts := newMap in
  let gwSelectorMatches := 0 in
  let gwSelector := k8s_labels.SelectorFromSet (v1alpha3.Selector gw) in
  let* gwSelectorMatches := ForEach (Pods c) (visitPod c servicePorts gwSelector)
                        gwSelectorMatches in
  ret (servicePorts, gwSelectorMatches).

(** [len(gw.Selector) != 1 || gw.Selector["istio"] != "ingressgateway"];
    a missing key reads as the empty string. *)
Definition notSystemSelector (sel : gmap string string) : bool :=
  negb (Z.of_nat (size sel) =? 1)
  || negb (String.eqb (default "" (sel !! "istio")) "ingressgateway").

(** Second phase: the [if gwSelectorMatches == 0] block. [None] is the
    early [return]; otherwise the address [servicePorts] holds afterwards. *)
Definition resolveServicePorts (r : resource.Instance v1alpha3.Gateway)
    (servicePorts : Loc) (gwSelectorMatches : Z) : M (option Loc) :=
  let gw := resource.Message r in
  let gwSelector := k8s_labels.SelectorFromSet (v1alpha3.Selector gw) in
  if gwSelectorMatches =? 0 then
    if notSystemSelector (v1alpha3.Selector gw) then
      let* _ := Report collections.IstioNetworkingV1Alpha3Gateways
                  (msg.NewReferencedResourceNotFound r "selector"
                     (k8s_labels.String gwSelector)) in
      ret None
    else ret (Some defaultIngressGatewayPorts)
  else ret (Some servicePorts).

(** Third phase: the loop over [gw.Servers]. *)
Definition checkServers (r : resource.Instance v1alpha3.Gateway)
    (servicePorts : Loc) : M unit :=
  let gw := resource.Message r in
  let gwSelector := k8s_labels.SelectorFromSet (v1alpha3.Selector gw) in
  forRange (v1alpha3.Servers gw) (λ server,
    match v1alpha3.Port_ server with
    | Some port =>
        let* ok := mapHas servicePorts (v1alpha3.Number port) in
        if negb ok then
          Report collections.IstioNetworkingV1Alpha3Gateways
            (msg.NewGatewayPortNotOnWorkload r (k8s_labels.String gwSelector)
               (int (v1alpha3.Number port)))
        else ret tt
    | None => ret tt
    end).

(** [analyzeGateway] *)
Definition analyzeGateway (r : resource.Instance v1alpha3.Gateway)
    (c : Context) : M unit :=
  let* found := discoverServicePorts r c in
  let* resolved := resolveServicePorts r found.1 found.2 in
  match resolved with
  | None => ret tt
  | Some servicePorts => checkServers r servicePorts
  end.

(** [Analyze] *)
Definition Analyze (c : Context) : M unit :=
  let* _ := ForEach (Gateways c)
              (λ r _, let* _ := analyzeGateway r c in ret (true, tt)) tt in
  ret tt.

(** *** Observations on a run *)

(** The first two phases together: what [servicePorts] holds when the
    loop over the servers starts ([None]: the function has returned). *)
Definition resolution (r : resource.Instance v1alpha3.Gateway) (c : Context)
    : M (option Loc) :=
  let* found := discoverServicePorts r c in
  resolveServicePorts r found.1 found.2.

(** The contents of the map [servicePorts] refers to at that point. *)
Definition resolvedServicePorts (r : resource.Instance v1alpha3.Gateway)
    (c : Context) (st : State) : option (gmap Z bool) :=
  match (resolution r c st).1 with
  | Some l => heap (resolution r c st).2 !! l
  | None => None
  end.

(** The messages a computation adds to the sink. *)
Definition reported {A} (m : M A) (st : State)
    : list (collections.Name * diag.Message) :=
  drop (length (sink st)) (sink (m st).2).

(** *** The specification's vocabulary *)

(** "[G.selector] matches [W.labels]" *)
Definition selects (sel labels : gmap string string) : bool :=
  k8s_labels.Matches (k8s_labels.SelectorFromSet sel) labels.

(** The workloads matched by the gateway's selector. *)
Definition matchedPods (r : resource.Instance v1alpha3.Gateway) (c : Context)
    : list (resource.Instance v1.Pod) :=
  filter (λ rPod, selects (v1alpha3.Selector (resource.Message r))
                    (v1.Labels (v1.ObjectMeta_ (resource.Message rPod))))
         (Pods c).

(** "[S.namespace == W.namespace] and [S.selector] matches [W.labels]" *)
Definition serves (rSvc : resource.Instance v1.ServiceSpec)
    (rPod : resource.Instance v1.Pod) : Prop :=
  resource.Namespace (resource.FullName_ (resource.Metadata_ rSvc))
    = v1.Namespace (v1.ObjectMeta_ (resource.Message rPod))
  ∧ selects (v1.Selector (resource.Message rSvc))
      (v1.Labels (v1.ObjectMeta_ (resource.Message rPod))).

#[export] Instance serves_dec rSvc rPod : Decision (serves rSvc rPod).
Proof. unfold serves. apply _. Defined.

(** The port numbers, as [uint32], of the entries with protocol "TCP". *)
Definition tcpPortNumbers (ports : list v1.ServicePort) : gset Z :=
  list_to_set ((λ p, uint32 (v1.Port p)) <$>
               filter (λ p, v1.Protocol p = "TCP") ports).

(** The TCP ports of a service. *)
Definition tcpPorts (rSvc : resource.Instance v1.ServiceSpec) : gset Z :=
  tcpPortNumbers (v1.Ports (resource.Message rSvc)).

(** The TCP ports of every service that serves the workload. *)
Definition podPorts (c : Context) (rPod : resource.Instance v1.Pod) : gset Z :=
  ⋃ (tcpPorts <$> filter (λ rSvc, serves rSvc rPod) (Services c)).

(** The union over all matched workloads. *)
Definition unionServicePorts (r : resource.Instance v1alpha3.Gateway)
    (c : Context) : gset Z :=
  ⋃ (podPorts c <$> matchedPods r c).

(** The well-known selector of the system ingress gateway. *)
Definition systemSelector : gmap string string :=
  {[ "istio" := "ingressgateway" ]}.

(** The fixed default set of the specification. *)
Definition defaultPortSet : gset Z := {[ 80; 443; 31400; 15443 ]}.

(** The diagnostic for a listener port that is not offered. *)
Definition portNotOnWorkload (r : resource.Instance v1alpha3.Gateway) (n : Z)
    : collections.Name * diag.Message :=
  (collections.IstioNetworkingV1Alpha3Gateways,
   msg.NewGatewayPortNotOnWorkload r
     (k8s_labels.String
        (k8s_labels.SelectorFromSet (v1alpha3.Selector (resource.Message r))))
     (int n)).

(** The diagnostic for a selector that selects nothing. *)
Definition selectorNotFound (r : resource.Instance v1alpha3.Gateway)
    : collections.Name * diag.Message :=
  (collections.IstioNetworkingV1Alpha3Gateways,
   msg.NewReferencedResourceNotFound r "selector"
     (k8s_labels.String
        (k8s_labels.SelectorFromSet (v1alpha3.Selector (resource.Message r))))).

(** "For every listener that declares a port number [n]: if [n] is not in
    [servicePorts], report": one diagnostic per such listener, in order. *)
Definition portDiagnostics (r : resource.Instance v1alpha3.Gateway)
    (servicePorts : gset Z) (servers : list v1alpha3.Server)
    : list (collections.Name * diag.Message) :=
  omap (λ server,
          match v1alpha3.Port_ server with
          | Some port =>
              if decide (v1alpha3.Number port ∈ servicePorts) then None
              else Some (portNotOnWorkload r (v1alpha3.Number port))
          | None => None
          end) servers.

(** The three outcomes of the algorithm for one gateway, as the
    specification words them (steps 3 and 4). *)
Definition gatewayDiagnostics (r : resource.Instance v1alpha3.Gateway)
    (c : Context) : list (collections.Name * diag.Message) :=
  let gw := resource.Message r in
  match matchedPods r c with
  | [] =>
      if decide (v1alpha3.Selector gw = systemSelector) then
        portDiagnostics r defaultPortSet (v1alpha3.Servers gw)
      else [selectorNotFound r]
  | _ :: _ => portDiagnostics r (unionServicePorts r c) (v1alpha3.Servers gw)
  end.

End Analyzer.

(** A diagnostic without the resource it is attached to: the collection,
    the kind and the detail fields. *)
Definition details (d : collections.Name * diag.Message)
    : collections.Name * diag.MessageType * list diag.Detail :=
  (d.1, diag.Type_ d.2, diag.Parameters_ d.2).

(** The gateway resource with another list of servers. *)
Definition withServers (r : resource.Instance v1alpha3.Gateway)
    (servers : list v1alpha3.Server) : resource.Instance v1alpha3.Gateway :=
  {| resource.Metadata_ := resource.Metadata_ r;
     resource.Message :=
       {| v1alpha3.Selector := v1alpha3.Selector (resource.Message r);
          v1alpha3.Servers := servers |} |}.

(** The snapshot in which [r] is the only gateway. *)
Definition alone (r : resource.Instance v1alpha3.Gateway) (c : Context) : Context :=
  {| Gateways := [r]; Pods := Pods c; Services := Services c |}.

(** The snapshot with another list of workloads. *)
Definition withPods (c : Context) (pods : list (resource.Instance v1.Pod)) : Context :=
  {| Gateways := Gateways c; Pods := pods; Services := Services c |}.

(** The snapshot with another list of gateways. *)
Definition withGateways (c : Context)
    (gws : list (resource.Instance v1alpha3.Gateway)) : Context :=
  {| Gateways := gws; Pods := Pods c; Services := Services c |}.

(** The keys of the map at [l]. A read through an address that holds no map
    finds no key. *)
Definition keysAt (l : Loc) (st : State) : gset Z :=
  match heap st !! l with
  | Some m => dom m
  | None => ∅
  end.

(** The store [st] in which the map at [l] holds exactly the ports [S]. *)
Definition withPorts (l : Loc) (S : gset Z) (st : State) : State :=
  {| heap := <[l := gset_to_gmap true S]> (heap st); sink := sink st |}.

(** The package-level map is in the store as the initialiser built it. *)
Definition defaults_intact (st : State) : Prop :=
  heap st !! defaultIngressGatewayPorts = Some defaultIngressGatewayPorts_init.

(** ** A selector library for concrete runs *)

Module conjunctive.
(** Modelled from the spec: the selector-match capability, which comes from
    the Kubernetes label library and is not in the source file: "all
    required key/value pairs must be present and equal; no selector
    requirements matches everything". The string form lists the
    requirements as key=value, joined by commas. *)
Definition Matches (sel labels : gmap string string) : bool :=
  bool_decide (map_Forall (λ k v, labels !! k = Some v) sel).

Definition String (sel : gmap string string) : string :=
  String.concat "," ((λ kv, kv.1 +:+ "=" +:+ kv.2) <$> map_to_list sel).

#[export] Instance selectors : k8s_labels.Selectors := {|
  k8s_labels.Selector := gmap string string;
  k8s_labels.SelectorFromSet := id;
  k8s_labels.Matches := Matches;
  k8s_labels.String := String
|}.
End conjunctive.

(** ** Sample snapshots (the specification's scenarios) *)

Module samples.
Import conjunctive.

Definition gateway (name : string) (sel : gmap string string)
    (ports : list (option Z)) : resource.Instance v1alpha3.Gateway :=
  {| resource.Metadata_ :=
       {| resource.FullName_ := {| resource.Namespace := "ns"; resource.Name := name |} |};
     resource.Message :=
       {| v1alpha3.Selector := sel;
          v1alpha3.Servers :=
            (λ p, {| v1alpha3.Port_ := (λ n, {| v1alpha3.Number := n |}) <$> p |})
              <$> ports |} |}.

Definition pod (ns name : string) (labels : gmap string string)
    : resource.Instance v1.Pod :=
  {| resource.Metadata_ :=
       {| resource.FullName_ := {| resource.Namespace := ns; resource.Name := name |} |};
     resource.Message :=
       {| v1.ObjectMeta_ := {| v1.Namespace := ns; v1.Labels := labels |} |} |}.

Definition service (ns name : string) (sel : gmap string string)
    (ports : list (string * Z)) : resource.Instance v1.ServiceSpec :=
  {| resource.Metadata_ :=
       {| resource.FullName_ := {| resource.Namespace := ns; resource.Name := name |} |};
     resource.Message :=
       {| v1.Selector := sel;
          v1.Ports := (λ p, {| v1.Protocol := p.1; v1.Port := p.2 |}) <$> ports |} |}.

Definition appGw : gmap string string := {[ "app" := "gw" ]}.

(** Scenario A: listener 443, the service offers TCP 80. *)
Definition gwA := gateway "a" appGw [Some 443].
(** Scenario B: listener 80. *)
Definition gwB := gateway "b" appGw [Some 80].
(** Scenario C: the system selector, no workload, listener 31400. *)
Definition gwC := gateway "c" systemSelector [Some 31400].
(** Scenario D: a selector that selects nothing. *)
Definition gwD := gateway "d" {[ "app" := "unknown" ]} [Some 80; Some 8080].
(** The system selector with a port outside the default set and a listener
    without a port. *)
Definition gwE := gateway "e" systemSelector [Some 80; None; Some 8080; Some 15443].
(** Listeners 80, none, 443, 9090 behind the application selector. *)
Definition gwF := gateway "f" appGw [Some 80; None; Some 443; Some 9090].

Definition snapshot : Context :=
  {| Gateways := [gwA; gwB; gwC; gwD; gwE; gwF];
     Pods := [pod "ns" "p1" appGw; pod "other" "p2" {[ "app" := "db" ]}];
     Services := [service "ns" "s1" appGw [("TCP", 80); ("UDP", 53)];
                  service "other" "s2" appGw [("TCP", 443)];
                  service "ns" "s3" ∅ [("TCP", 9090)]] |}.

(** The snapshot of scenarios A to D: one workload and one service in "ns". *)
Definition scenario : Context :=
  {| Gateways := [gwA; gwB; gwC; gwD];
     Pods := [pod "ns" "p1" appGw];
     Services := [service "ns" "s1" appGw [("TCP", 80)]] |}.

(** One matched workload, but every service is in another namespace or
    offers no TCP port. *)
Definition unserved : Context :=
  {| Gateways := [gwF];
     Pods := [pod "ns" "p1" appGw];
     Services := [service "other" "s2" appGw [("TCP", 80)];
                  service "ns" "s4" appGw [("UDP", 443)]] |}.
End samples.


(** ** Machine integers: basic facts *)

Lemma uint32_small (x : Z) : 0 ≤ x < 2 ^ 32 → uint32 x = x.
Proof. intros Hx. unfold uint32. by apply Z.mod_small. Qed.

Lemma int_small (x : Z) : - 2 ^ 63 ≤ x < 2 ^ 63 → int x = x.
Proof. intros Hx. unfold int. rewrite Z.mod_small; lia. Qed.

(** Counting up from zero with wrapping increments is exact below 2^63. *)
Lemma count_exact (k : nat) (z : Z) :
  0 ≤ z → z + Z.of_nat k < 2 ^ 63 →
  Nat.iter k (λ n, int (n + 1)) z = z + Z.of_nat k.
Proof.
  revert z. induction k as [|k IH]; intros z Hz Hk.
  - simpl. lia.
  - assert (Hs : int (z + 1) = z + 1) by (apply int_small; lia).
    rewrite Nat.iter_succ_r, Hs, IH; lia.
Qed.

(** ** The store *)

Lemma state_eta (st : State) : {| heap := heap st; sink := sink st |} = st.
Proof. by destruct st. Qed.

Lemma withPorts_withPorts l S1 S2 st :
  withPorts l S2 (withPorts l S1 st) = withPorts l S2 st.
Proof. unfold withPorts; simpl. by rewrite insert_insert_eq. Qed.

Lemma newMap_withPorts st :
  newMap st = (fresh (dom (heap st)), withPorts (fresh (dom (heap st))) ∅ st).
Proof. unfold newMap, withPorts. by rewrite gset_to_gmap_empty. Qed.

Lemma mapStore_withPorts l k S st :
  mapStore l k true (withPorts l S st) = (tt, withPorts l (S ∪ {[k]}) st).
Proof.
  unfold mapStore, withPorts; simpl. rewrite alter_insert_eq.
  by rewrite (comm_L (∪) S), gset_to_gmap_union_singleton.
Qed.

Lemma fresh_not_defaults st :
  is_Some (heap st !! defaultIngressGatewayPorts) →
  fresh (dom (heap st)) ≠ defaultIngressGatewayPorts.
Proof.
  intros Hd Heq. apply elem_of_dom in Hd. rewrite <- Heq in Hd.
  by apply is_fresh in Hd.
Qed.

(** The selector test of the fallback recognises exactly the system selector. *)
Lemma notSystemSelector_false (sel : gmap string string) :
  notSystemSelector sel = false ↔ sel = systemSelector.
Proof.
  unfold notSystemSelector, systemSelector. split.
  - intros Hb. apply orb_false_elim in Hb as [Hsz Hv].
    apply negb_false_iff in Hsz, Hv.
    apply Z.eqb_eq in Hsz. apply String.eqb_eq in Hv.
    assert (Hsize : size sel = 1%nat) by lia.
    destruct (sel !! "istio") as [v|] eqn:Hl; simpl in Hv; [subst v|done].
    apply map_eq. intros k. destruct (decide (k = "istio")) as [->|Hne].
    + by rewrite Hl, lookup_singleton_eq.
    + rewrite lookup_singleton_ne by done.
      destruct (sel !! k) as [w|] eqn:Hk; [|done].
      assert (Hd : size (delete "istio" sel) = 0%nat).
      { rewrite map_size_delete, Hl. simpl. lia. }
      apply map_size_empty_inv in Hd.
      assert (delete "istio" sel !! k = Some w) by by rewrite lookup_delete_ne.
      rewrite Hd, lookup_empty in *. done.
  - intros ->. rewrite map_size_singleton, lookup_singleton_eq. done.
Qed.

Lemma notSystemSelector_true (sel : gmap string string) :
  notSystemSelector sel = true ↔ sel ≠ systemSelector.
Proof.
  rewrite <- notSystemSelector_false. by destruct (notSystemSelector sel).
Qed.

(** ** What each phase does to the store *)

Section Effects.
Context `{k8s_labels.Selectors}.

(** The loop over [service.Ports]. *)
Lemma forRange_ports l ports S st :
  forRange ports (λ port,
      if String.eqb (v1.Protocol port) "TCP" then
        mapStore l (uint32 (v1.Port port)) true
      else ret tt) (withPorts l S st)
  = (tt, withPorts l (S ∪ tcpPortNumbers ports) st).
Proof.
  revert S. induction ports as [|port ports IH]; intros S; simpl.
  - unfold ret, tcpPortNumbers. simpl. by rewrite (right_id_L ∅ (∪)).
  - unfold bind. unfold tcpPortNumbers. rewrite filter_cons.
    destruct (String.eqb_spec (v1.Protocol port) "TCP") as [Htcp|Htcp].
    + rewrite mapStore_withPorts, IH. rewrite decide_True by done.
      simpl. unfold tcpPortNumbers. by rewrite <- (assoc_L (∪)).
    + unfold ret. rewrite IH. by rewrite decide_False by done.
Qed.

(** One service, seen from one matched workload. *)
Lemma visitService_withPorts l rPod rSvc S st :
  visitService l (resource.Message rPod)
    (v1.Labels (v1.ObjectMeta_ (resource.Message rPod))) rSvc tt
    (withPorts l S st)
  = ((true, tt),
     withPorts l (S ∪ (if decide (serves rSvc rPod) then tcpPorts rSvc else ∅)) st).
Proof.
  unfold visitService.
  destruct (decide (serves rSvc rPod)) as [[Hns Hsel]|Hn].
  - rewrite Hns, String.eqb_refl. simpl. unfold selects in Hsel.
    apply Is_true_true in Hsel. rewrite Hsel.
    unfold bind. by rewrite forRange_ports.
  - rewrite (right_id_L ∅ (∪)).
    destruct (String.eqb_spec
                (resource.Namespace (resource.FullName_ (resource.Metadata_ rSvc)))
                (v1.Namespace (v1.ObjectMeta_ (resource.Message rPod))))
      as [Hns|Hns]; simpl; [|done].
    destruct (k8s_labels.Matches _ _) eqn:Hm; [|done].
    exfalso. apply Hn. split; [done|]. unfold selects. by rewrite Hm.
Qed.

(** The scan of the services for one matched workload. *)
Lemma ForEach_services l rPod svcs S st :
  ForEach svcs
    (visitService l (resource.Message rPod)
       (v1.Labels (v1.ObjectMeta_ (resource.Message rPod)))) tt
    (withPorts l S st)
  = (tt, withPorts l
           (S ∪ ⋃ (tcpPorts <$> filter (λ rSvc, serves rSvc rPod) svcs)) st).
Proof.
  revert S. induction svcs as [|rSvc svcs IH]; intros S; simpl.
  - unfold ret. by rewrite (right_id_L ∅ (∪)).
  - unfold bind. rewrite visitService_withPorts. simpl. rewrite IH.
    rewrite filter_cons.
    destruct (decide (serves rSvc rPod)); simpl.
    + by rewrite <- (assoc_L (∪)).
    + by rewrite (right_id_L ∅ (∪)).
Qed.

(** One workload. *)
Lemma visitPod_withPorts c l sel rPod n S st :
  visitPod c l (k8s_labels.SelectorFromSet sel) rPod n (withPorts l S st)
  = if selects sel (v1.Labels (v1.ObjectMeta_ (resource.Message rPod))) then
      ((true, int (n + 1)), withPorts l (S ∪ podPorts c rPod) st)
    else ((true, n), withPorts l S st).
Proof.
  unfold visitPod, selects.
  destruct (k8s_labels.Matches _ _); [|done].
  unfold bind. by rewrite ForEach_services.
Qed.

(** The scan of the workloads. *)
Lemma ForEach_pods c l sel pods n S st :
  let matched :=
    filter (λ rPod, selects sel (v1.Labels (v1.ObjectMeta_ (resource.Message rPod))))
           pods in
  ForEach pods (visitPod c l (k8s_labels.SelectorFromSet sel)) n (withPorts l S st)
  = (Nat.iter (length matched) (λ z, int (z + 1)) n,
     withPorts l (S ∪ ⋃ (podPorts c <$> matched)) st).
Proof.
  simpl. revert n S. induction pods as [|rPod pods IH]; intros n S; simpl.
  - unfold ret. by rewrite (right_id_L ∅ (∪)).
  - unfold bind. rewrite visitPod_withPorts, filter_cons.
    destruct (decide (selects sel
                (v1.Labels (v1.ObjectMeta_ (resource.Message rPod)))))
      as [Hsel|Hsel].
    + apply Is_true_true in Hsel. rewrite Hsel.
      change (length (rPod :: ?l)) with (Datatypes.S (length l)).
      rewrite Nat.iter_succ_r. simpl. rewrite IH.
      by rewrite <- (assoc_L (∪)).
    + apply Is_true_false in Hsel. rewrite Hsel. simpl. by rewrite IH.
Qed.

(** The first phase: a fresh map that ends up holding the union. *)
Lemma discoverServicePorts_spec r c st :
  discoverServicePorts r c st
  = ((fresh (dom (heap st)),
      Nat.iter (length (matchedPods r c)) (λ z, int (z + 1)) 0),
     withPorts (fresh (dom (heap st))) (unionServicePorts r c) st).
Proof.
  unfold discoverServicePorts, bind. rewrite newMap_withPorts.
  rewrite ForEach_pods. unfold ret, unionServicePorts, matchedPods.
  by rewrite (left_id_L ∅ (∪)).
Qed.

(** The counter is zero exactly when no workload matched. *)
Lemma gwSelectorMatches_zero r c :
  Z.of_nat (length (Pods c)) < 2 ^ 63 →
  Nat.iter (length (matchedPods r c)) (λ z, int (z + 1)) 0 = 0
  ↔ matchedPods r c = [].
Proof.
  intros Hlen.
  assert (Hle : (length (matchedPods r c) ≤ length (Pods c))%nat)
    by apply length_filter.
  rewrite count_exact by lia. destruct (matchedPods r c); simpl; [done|].
  split; [lia|done].
Qed.

(** The loop over the servers only reads the map it is given. *)
Lemma mapHas_keysAt l n st :
  mapHas l n st = (bool_decide (n ∈ keysAt l st), st).
Proof.
  unfold mapHas, keysAt. destruct (heap st !! l) as [m|]; [|done].
  f_equal. apply bool_decide_ext. by rewrite elem_of_dom.
Qed.

Lemma forRange_servers r l servers st :
  forRange servers (λ server,
    match v1alpha3.Port_ server with
    | Some port =>
        let* ok := mapHas l (v1alpha3.Number port) in
        if negb ok then
          Report collections.IstioNetworkingV1Alpha3Gateways
            (msg.NewGatewayPortNotOnWorkload r
               (k8s_labels.String
                  (k8s_labels.SelectorFromSet
                     (v1alpha3.Selector (resource.Message r))))
               (int (v1alpha3.Number port)))
        else ret tt
    | None => ret tt
    end) st
  = (tt, {| heap := heap st;
            sink := sink st ++ portDiagnostics r (keysAt l st) servers |}).
Proof.
  revert st. induction servers as [|server servers IH]; intros st; simpl.
  - unfold ret, portDiagnostics. simpl. by rewrite (right_id_L [] (++)), state_eta.
  - unfold bind at 1. unfold portDiagnostics. cbn [omap list_omap].
    destruct (v1alpha3.Port_ server) as [port|].
    + unfold bind at 1. rewrite mapHas_keysAt.
      destruct (decide (v1alpha3.Number port ∈ keysAt l st)) as [Hin|Hin].
      * rewrite bool_decide_eq_true_2 by done. simpl. by rewrite IH.
      * rewrite bool_decide_eq_false_2 by done. simpl.
        rewrite IH. simpl. by rewrite <- (assoc_L (++)).
    + simpl. by rewrite IH.
Qed.

Lemma checkServers_keysAt r l st :
  checkServers r l st
  = (tt, {| heap := heap st;
            sink := sink st
                    ++ portDiagnostics r (keysAt l st)
                         (v1alpha3.Servers (resource.Message r)) |}).
Proof. unfold checkServers. apply forRange_servers. Qed.

Lemma checkServers_spec r l m st :
  heap st !! l = Some m →
  checkServers r l st
  = (tt, {| heap := heap st;
            sink := sink st
                    ++ portDiagnostics r (dom m)
                         (v1alpha3.Servers (resource.Message r)) |}).
Proof. intros Hl. rewrite checkServers_keysAt. unfold keysAt. by rewrite Hl. Qed.

(** [analyzeGateway] is the resolution followed by the check, unless the
    resolution returned. *)
Lemma analyzeGateway_resolution r c st :
  analyzeGateway r c st
  = match (resolution r c st).1 with
    | Some l => checkServers r l (resolution r c st).2
    | None => (tt, (resolution r c st).2)
    end.
Proof.
  unfold analyzeGateway, resolution, bind.
  destruct (discoverServicePorts r c st) as [found st1].
  by destruct (resolveServicePorts r found.1 found.2 st1) as [[l|] st2].
Qed.

(** The three outcomes of the resolution. *)
Lemma resolution_matched r c st :
  Z.of_nat (length (Pods c)) < 2 ^ 63 →
  matchedPods r c ≠ [] →
  resolution r c st
  = (Some (fresh (dom (heap st))),
     withPorts (fresh (dom (heap st))) (unionServicePorts r c) st).
Proof.
  intros Hlen Hm. unfold resolution, bind.
  rewrite discoverServicePorts_spec. unfold resolveServicePorts. simpl.
  destruct (Z.eqb_spec (Nat.iter (length (matchedPods r c)) (λ z, int (z + 1)) 0) 0)
    as [Hz|Hz]; [|done].
  by apply gwSelectorMatches_zero in Hz.
Qed.

Lemma unionServicePorts_unmatched r c :
  matchedPods r c = [] → unionServicePorts r c = ∅.
Proof. unfold unionServicePorts. by intros ->. Qed.

Lemma resolution_system r c st :
  matchedPods r c = [] →
  v1alpha3.Selector (resource.Message r) = systemSelector →
  resolution r c st
  = (Some defaultIngressGatewayPorts, withPorts (fresh (dom (heap st))) ∅ st).
Proof.
  intros Hm Hsel. unfold resolution, bind.
  rewrite discoverServicePorts_spec, unionServicePorts_unmatched, Hm by done.
  unfold resolveServicePorts. simpl.
  apply notSystemSelector_false in Hsel. by rewrite Hsel.
Qed.

Lemma resolution_missing r c st :
  matchedPods r c = [] →
  v1alpha3.Selector (resource.Message r) ≠ systemSelector →
  resolution r c st
  = (None, {| heap := heap (withPorts (fresh (dom (heap st))) ∅ st);
              sink := sink st ++ [selectorNotFound r] |}).
Proof.
  intros Hm Hsel. unfold resolution, bind.
  rewrite discoverServicePorts_spec, unionServicePorts_unmatched, Hm by done.
  unfold resolveServicePorts. simpl.
  apply notSystemSelector_true in Hsel. by rewrite Hsel.
Qed.

Lemma dom_defaults : dom defaultIngressGatewayPorts_init = defaultPortSet.
Proof.
  unfold defaultIngressGatewayPorts_init, defaultPortSet.
  rewrite !dom_insert_L, dom_empty_L. by rewrite (right_id_L ∅ (∪)).
Qed.

(** The whole of [analyzeGateway] on a store with the default table in
    place: a new map is left behind, and the sink receives the diagnostics
    of the specification. *)
Lemma analyzeGateway_spec r c st :
  Z.of_nat (length (Pods c)) < 2 ^ 63 →
  defaults_intact st →
  analyzeGateway r c st
  = (tt, {| heap := <[fresh (dom (heap st)) :=
                        gset_to_gmap true (unionServicePorts r c)]> (heap st);
            sink := sink st ++ gatewayDiagnostics r c |}).
Proof.
  intros Hlen Hd. rewrite analyzeGateway_resolution.
  assert (Hfresh : fresh (dom (heap st)) ≠ defaultIngressGatewayPorts)
    by (apply fresh_not_defaults; by rewrite Hd).
  unfold gatewayDiagnostics.
  destruct (matchedPods r c) as [|rPod matched] eqn:Hm.
  - destruct (decide (v1alpha3.Selector (resource.Message r) = systemSelector))
      as [Hsel|Hsel].
    + rewrite resolution_system by done. simpl.
      rewrite unionServicePorts_unmatched by done.
      rewrite (checkServers_spec r _ defaultIngressGatewayPorts_init).
      * by rewrite dom_defaults.
      * unfold withPorts. simpl. by rewrite lookup_insert_ne.
    + rewrite resolution_missing by done. simpl.
      by rewrite unionServicePorts_unmatched.
  - rewrite resolution_matched by (done || by rewrite Hm). simpl.
    rewrite (checkServers_spec r _ (gset_to_gmap true (unionServicePorts r c))).
    + by rewrite dom_gset_to_gmap.
    + unfold withPorts. simpl. by rewrite lookup_insert_eq.
Qed.

(** The gateway visitor always continues with the next gateway. *)
Lemma ForEach_gateways_cons c r gws st :
  ForEach (r :: gws)
    (λ r _, let* _ := analyzeGateway r c in ret (true, tt)) tt st
  = ForEach gws
      (λ r _, let* _ := analyzeGateway r c in ret (true, tt)) tt
      (analyzeGateway r c st).2.
Proof.
  simpl. unfold bind at 1. unfold bind at 1.
  by destruct (analyzeGateway r c st) as [[] st1].
Qed.

(** The pass over all gateways. *)
Lemma ForEach_gateways c gws st :
  Z.of_nat (length (Pods c)) < 2 ^ 63 →
  defaults_intact st →
  let st' := (ForEach gws
                (λ r _, let* _ := analyzeGateway r c in ret (true, tt)) tt st).2 in
  sink st' = sink st ++ concat ((λ r, gatewayDiagnostics r c) <$> gws)
  ∧ heap st' !! defaultIngressGatewayPorts = heap st !! defaultIngressGatewayPorts.
Proof.
  intros Hlen. simpl. revert st.
  induction gws as [|r gws IH]; intros st Hd.
  - simpl. by rewrite (right_id_L [] (++)).
  - rewrite ForEach_gateways_cons, analyzeGateway_spec by done.
    cbn [fst snd].
    assert (Hfresh : fresh (dom (heap st)) ≠ defaultIngressGatewayPorts)
      by (apply fresh_not_defaults; by rewrite Hd).
    match goal with |- context [ForEach gws _ tt ?s] => destruct (IH s) as [Hs Hh] end.
    { unfold defaults_intact. simpl. by rewrite lookup_insert_ne. }
    split.
    + rewrite Hs. simpl. by rewrite <- (assoc_L (++)).
    + rewrite Hh. simpl. by rewrite lookup_insert_ne.
Qed.

(** *** Frame: what a run leaves alone *)

Lemma checkServers_heap r l st : heap (checkServers r l st).2 = heap st.
Proof.
  unfold checkServers.
  generalize (v1alpha3.Servers (resource.Message r)). intros servers.
  revert st. induction servers as [|server servers IH]; intros st; simpl.
  - done.
  - unfold bind at 1. destruct (v1alpha3.Port_ server) as [port|]; simpl.
    + unfold bind at 1, mapHas.
      destruct (negb _); simpl; by rewrite IH.
    + by rewrite IH.
Qed.

Lemma resolution_heap r c st :
  heap (resolution r c st).2
  = <[fresh (dom (heap st)) := gset_to_gmap true (unionServicePorts r c)]> (heap st).
Proof.
  unfold resolution, bind. rewrite discoverServicePorts_spec.
  unfold resolveServicePorts. simpl.
  destruct (_ =? 0); [|done]. by destruct (notSystemSelector _).
Qed.

(** A run of [analyzeGateway] adds one map to the store and changes no
    other. *)
Lemma analyzeGateway_heap r c st :
  heap (analyzeGateway r c st).2
  = <[fresh (dom (heap st)) := gset_to_gmap true (unionServicePorts r c)]> (heap st).
Proof.
  rewrite analyzeGateway_resolution.
  destruct (resolution r c st).1 as [l|] eqn:Hres.
  - by rewrite checkServers_heap, resolution_heap.
  - simpl. by rewrite resolution_heap.
Qed.

Lemma analyzeGateway_frame r c st l m :
  heap st !! l = Some m → heap (analyzeGateway r c st).2 !! l = Some m.
Proof.
  intros Hl. rewrite analyzeGateway_heap, lookup_insert_ne; [done|].
  intros Heq. assert (Hin : l ∈ dom (heap st)) by (apply elem_of_dom; eauto).
  rewrite <- Heq in Hin. by apply is_fresh in Hin.
Qed.

Lemma ForEach_gateways_frame c gws st l m :
  heap st !! l = Some m →
  heap (ForEach gws
          (λ r _, let* _ := analyzeGateway r c in ret (true, tt)) tt st).2 !! l
  = Some m.
Proof.
  revert st. induction gws as [|r gws IH]; intros st Hl.
  - done.
  - rewrite ForEach_gateways_cons. apply IH. by apply analyzeGateway_frame.
Qed.

Lemma Analyze_frame c st l m :
  heap st !! l = Some m → heap (Analyze c st).2 !! l = Some m.
Proof.
  intros Hl. unfold Analyze, bind.
  pose proof (ForEach_gateways_frame c (Gateways c) st l m Hl) as Hf.
  by destruct (ForEach (Gateways c) _ tt st).
Qed.

(** The sink after a whole pass. *)
Lemma Analyze_sink c st :
  Z.of_nat (length (Pods c)) < 2 ^ 63 →
  defaults_intact st →
  sink (Analyze c st).2
  = sink st ++ concat ((λ r, gatewayDiagnostics r c) <$> Gateways c).
Proof.
  intros Hlen Hd. unfold Analyze, bind.
  destruct (ForEach_gateways c (Gateways c) st Hlen Hd) as [Hs _].
  by destruct (ForEach (Gateways c) _ tt st).
Qed.

(** *** The resolved ports *)

Lemma resolution_sink r c st l :
  (resolution r c st).1 = Some l → sink (resolution r c st).2 = sink st.
Proof.
  unfold resolution, bind. rewrite discoverServicePorts_spec.
  unfold resolveServicePorts. simpl.
  destruct (_ =? 0); [|done]. by destruct (notSystemSelector _).
Qed.

Lemma resolvedServicePorts_matched r c st :
  Z.of_nat (length (Pods c)) < 2 ^ 63 →
  matchedPods r c ≠ [] →
  resolvedServicePorts r c st = Some (gset_to_gmap true (unionServicePorts r c)).
Proof.
  intros Hlen Hm. unfold resolvedServicePorts.
  rewrite resolution_matched by done. simpl. by rewrite lookup_insert_eq.
Qed.

Lemma resolvedServicePorts_system r c st :
  defaults_intact st →
  matchedPods r c = [] →
  v1alpha3.Selector (resource.Message r) = systemSelector →
  resolvedServicePorts r c st = Some defaultIngressGatewayPorts_init.
Proof.
  intros Hd Hm Hsel. unfold resolvedServicePorts.
  rewrite resolution_system by done. simpl.
  rewrite lookup_insert_ne; [done|].
  apply fresh_not_defaults. by rewrite Hd.
Qed.

Lemma resolvedServicePorts_missing r c st :
  matchedPods r c = [] →
  v1alpha3.Selector (resource.Message r) ≠ systemSelector →
  resolvedServicePorts r c st = None.
Proof.
  intros Hm Hsel. unfold resolvedServicePorts.
  by rewrite resolution_missing.
Qed.

(** *** The specification's sets, element by element *)

Lemma matchedPods_nil r c :
  matchedPods r c = []
  ↔ ∀ rPod, rPod ∈ Pods c →
      ¬ selects (v1alpha3.Selector (resource.Message r))
          (v1.Labels (v1.ObjectMeta_ (resource.Message rPod))).
Proof.
  unfold matchedPods. split.
  - intros Hnil rPod Hin Hsel.
    by apply (filter_nil_not_elem_of _ _ rPod Hnil Hsel).
  - intros Hno. induction (Pods c) as [|rPod pods IH]; [done|].
    rewrite filter_cons_False by (apply Hno; left).
    apply IH. intros rPod' Hin. apply Hno. by right.
Qed.

Lemma elem_of_matchedPods r c rPod :
  rPod ∈ matchedPods r c
  ↔ rPod ∈ Pods c
    ∧ selects (v1alpha3.Selector (resource.Message r))
        (v1.Labels (v1.ObjectMeta_ (resource.Message rPod))).
Proof. unfold matchedPods. rewrite list_elem_of_filter. tauto. Qed.

Lemma elem_of_tcpPorts rSvc n :
  n ∈ tcpPorts rSvc
  ↔ ∃ port, port ∈ v1.Ports (resource.Message rSvc)
            ∧ v1.Protocol port = "TCP" ∧ uint32 (v1.Port port) = n.
Proof.
  unfold tcpPorts, tcpPortNumbers.
  rewrite elem_of_list_to_set, list_elem_of_fmap. split.
  - intros (port & -> & Hin). apply list_elem_of_filter in Hin as [Htcp Hin].
    by exists port.
  - intros (port & Hin & Htcp & <-). exists port. split; [done|].
    by apply list_elem_of_filter.
Qed.

Lemma elem_of_podPorts c rPod n :
  n ∈ podPorts c rPod
  ↔ ∃ rSvc, rSvc ∈ Services c ∧ serves rSvc rPod ∧ n ∈ tcpPorts rSvc.
Proof.
  unfold podPorts. rewrite elem_of_union_list. split.
  - intros (X & HX & Hn). apply list_elem_of_fmap in HX as (rSvc & -> & Hin).
    apply list_elem_of_filter in Hin as [Hs Hin]. by exists rSvc.
  - intros (rSvc & Hin & Hs & Hn). exists (tcpPorts rSvc). split; [|done].
    apply list_elem_of_fmap. exists rSvc. split; [done|].
    by apply list_elem_of_filter.
Qed.

Lemma elem_of_unionServicePorts r c n :
  n ∈ unionServicePorts r c
  ↔ ∃ rPod, rPod ∈ matchedPods r c ∧ n ∈ podPorts c rPod.
Proof.
  unfold unionServicePorts. rewrite elem_of_union_list. split.
  - intros (X & HX & Hn). apply list_elem_of_fmap in HX as (rPod & -> & Hin).
    by exists rPod.
  - intros (rPod & Hin & Hn). exists (podPorts c rPod). split; [|done].
    apply list_elem_of_fmap. by exists rPod.
Qed.

Lemma elem_of_portDiagnostics r S servers d :
  d ∈ portDiagnostics r S servers
  ↔ ∃ server port, server ∈ servers
      ∧ v1alpha3.Port_ server = Some port
      ∧ (v1alpha3.Number port ∉ S)
      ∧ d = portNotOnWorkload r (v1alpha3.Number port).
Proof.
  unfold portDiagnostics. rewrite list_elem_of_omap. split.
  - intros (server & Hin & Hd).
    destruct (v1alpha3.Port_ server) as [port|] eqn:Hp; [|done].
    destruct (decide (v1alpha3.Number port ∈ S)); [done|].
    exists server, port. by simplify_eq.
  - intros (server & port & Hin & Hp & Hn & ->). exists server.
    split; [done|]. rewrite Hp. by rewrite decide_False.
Qed.

End Effects.

(** ** The claims *)

(** C1. For every gateway with at least one matching workload, the resolved
    [servicePorts] is the union, over the workloads the gateway's selector
    matches, of the TCP port numbers of every service that is in the
    workload's namespace and whose selector matches the workload's labels.
    A number is in the set only through a service entry whose protocol is
    "TCP". Port numbers are the unsigned values the code converts them to. *)
Theorem servicePorts_is_union `{k8s_labels.Selectors}
    (r : resource.Instance v1alpha3.Gateway) (c : Context) (st : State) :
  Z.of_nat (length (Pods c)) < 2 ^ 63 →
  (∃ rPod, rPod ∈ Pods c
     ∧ selects (v1alpha3.Selector (resource.Message r))
         (v1.Labels (v1.ObjectMeta_ (resource.Message rPod)))) →
  ∃ ports : gmap Z bool,
    resolvedServicePorts r c st = Some ports
    ∧ dom ports = unionServicePorts r c
    ∧ ∀ n : Z,
        n ∈ dom ports ↔
        ∃ rPod rSvc port,
          rPod ∈ Pods c
          ∧ selects (v1alpha3.Selector (resource.Message r))
              (v1.Labels (v1.ObjectMeta_ (resource.Message rPod)))
          ∧ rSvc ∈ Services c
          ∧ resource.Namespace (resource.FullName_ (resource.Metadata_ rSvc))
            = v1.Namespace (v1.ObjectMeta_ (resource.Message rPod))
          ∧ selects (v1.Selector (resource.Message rSvc))
              (v1.Labels (v1.ObjectMeta_ (resource.Message rPod)))
          ∧ port ∈ v1.Ports (resource.Message rSvc)
          ∧ v1.Protocol port = "TCP"
          ∧ uint32 (v1.Port port) = n.
Proof.
  intros Hlen (rPod0 & Hin0 & Hsel0).
  assert (Hm : matchedPods r c ≠ []).
  { intros Hnil. by apply (proj1 (matchedPods_nil r c) Hnil rPod0). }
  exists (gset_to_gmap true (unionServicePorts r c)).
  split; [by apply resolvedServicePorts_matched|].
  rewrite dom_gset_to_gmap. split; [done|].
  intros n. rewrite elem_of_unionServicePorts. split.
  - intros (rPod & Hpod & Hn).
    apply elem_of_matchedPods in Hpod as [Hpod Hsel].
    apply elem_of_podPorts in Hn as (rSvc & Hsvc & [Hns Hs] & Hn).
    apply elem_of_tcpPorts in Hn as (port & Hport & Htcp & Hnum).
    by exists rPod, rSvc, port.
  - intros (rPod & rSvc & port & Hpod & Hsel & Hsvc & Hns & Hs & Hport & Htcp & Hnum).
    exists rPod. split; [by apply elem_of_matchedPods|].
    apply elem_of_podPorts. exists rSvc. split; [done|]. split; [done|].
    apply elem_of_tcpPorts. by exists port.
Qed.

Lemma servicePorts_is_union_witness :
  ∃ ports : gmap Z bool,
    resolvedServicePorts (H := conjunctive.selectors)
      samples.gwA samples.snapshot init_state = Some ports
    ∧ dom ports = unionServicePorts (H := conjunctive.selectors)
                    samples.gwA samples.snapshot
    ∧ ∀ n : Z,
        n ∈ dom ports ↔
        ∃ rPod rSvc port,
          rPod ∈ Pods samples.snapshot
          ∧ selects (H := conjunctive.selectors)
              (v1alpha3.Selector (resource.Message samples.gwA))
              (v1.Labels (v1.ObjectMeta_ (resource.Message rPod)))
          ∧ rSvc ∈ Services samples.snapshot
          ∧ resource.Namespace (resource.FullName_ (resource.Metadata_ rSvc))
            = v1.Namespace (v1.ObjectMeta_ (resource.Message rPod))
          ∧ selects (H := conjunctive.selectors)
              (v1.Selector (resource.Message rSvc))
              (v1.Labels (v1.ObjectMeta_ (resource.Message rPod)))
          ∧ port ∈ v1.Ports (resource.Message rSvc)
          ∧ v1.Protocol port = "TCP"
          ∧ uint32 (v1.Port port) = n.
Proof.
  apply (servicePorts_is_union (H := conjunctive.selectors)
           samples.gwA samples.snapshot init_state).
  - vm_compute. reflexivity.
  - exists (samples.pod "ns" "p1" samples.appGw). split.
    + apply list_elem_of_here.
    + vm_compute. exact I.
Defined.

(** C2. For every gateway whose selector matches no workload of the snapshot
    and is not exactly the single pair "istio" = "ingressgateway", the run
    reports exactly one diagnostic on that gateway: a
    ReferencedResourceNotFound with field "selector" and the selector's
    string form. No GatewayPortNotOnWorkload follows, whatever the listener
    ports are. *)
Theorem missing_selector_reported_once `{k8s_labels.Selectors}
    (r : resource.Instance v1alpha3.Gateway) (c : Context) (st : State) :
  (∀ rPod, rPod ∈ Pods c →
     ¬ selects (v1alpha3.Selector (resource.Message r))
         (v1.Labels (v1.ObjectMeta_ (resource.Message rPod)))) →
  v1alpha3.Selector (resource.Message r) ≠ {[ "istio" := "ingressgateway" ]} →
  sink (analyzeGateway r c st).2
  = sink st
    ++ [(collections.IstioNetworkingV1Alpha3Gateways,
         {| diag.Type_ := diag.ReferencedResourceNotFound;
            diag.Resource := r;
            diag.Parameters_ :=
              [diag.PString "selector";
               diag.PString
                 (k8s_labels.String
                    (k8s_labels.SelectorFromSet
                       (v1alpha3.Selector (resource.Message r))))] |})].
Proof.
  intros Hno Hsel. apply matchedPods_nil in Hno.
  rewrite analyzeGateway_resolution, resolution_missing by done.
  done.
Qed.

Lemma missing_selector_reported_once_witness :
  sink (analyzeGateway (H := conjunctive.selectors)
          samples.gwD samples.snapshot init_state).2
  = sink init_state
    ++ [(collections.IstioNetworkingV1Alpha3Gateways,
         {| diag.Type_ := diag.ReferencedResourceNotFound;
            diag.Resource := samples.gwD;
            diag.Parameters_ :=
              [diag.PString "selector";
               diag.PString
                 (k8s_labels.String (Selectors := conjunctive.selectors)
                    (k8s_labels.SelectorFromSet
                       (v1alpha3.Selector (resource.Message samples.gwD))))] |})].
Proof.
  apply (missing_selector_reported_once (H := conjunctive.selectors)
           samples.gwD samples.snapshot init_state).
  - intros rPod Hin Hsel.
    apply elem_of_cons in Hin as [->|Hin]; [by vm_compute in Hsel|].
    apply elem_of_cons in Hin as [->|Hin]; [by vm_compute in Hsel|].
    by apply elem_of_nil in Hin.
  - intros Heq.
    assert (Hl : v1alpha3.Selector (resource.Message samples.gwD) !! "app"
                 = Some "unknown") by (vm_compute; reflexivity).
    rewrite Heq in Hl. vm_compute in Hl. discriminate Hl.
Defined.

(** C3. For every gateway whose selector matches no workload and is exactly
    the single pair "istio" = "ingressgateway", the listener ports are
    checked against the fixed set 80, 443, 31400, 15443 and nothing else: a
    listener whose declared port is in the set produces no diagnostic, one
    whose declared port is outside it produces a GatewayPortNotOnWorkload,
    and nothing else is reported. *)
Theorem system_gateway_checked_against_defaults `{k8s_labels.Selectors}
    (r : resource.Instance v1alpha3.Gateway) (c : Context) (st : State) :
  defaults_intact st →
  (∀ rPod, rPod ∈ Pods c →
     ¬ selects (v1alpha3.Selector (resource.Message r))
         (v1.Labels (v1.ObjectMeta_ (resource.Message rPod)))) →
  v1alpha3.Selector (resource.Message r) = {[ "istio" := "ingressgateway" ]} →
  resolvedServicePorts r c st = Some defaultIngressGatewayPorts_init
  ∧ dom defaultIngressGatewayPorts_init = ({[ 80; 443; 31400; 15443 ]} : gset Z)
  ∧ sink (analyzeGateway r c st).2
    = sink st
      ++ omap (λ server,
                 match v1alpha3.Port_ server with
                 | Some port =>
                     if decide (v1alpha3.Number port
                                  ∈ ({[ 80; 443; 31400; 15443 ]} : gset Z))
                     then None
                     else Some (collections.IstioNetworkingV1Alpha3Gateways,
                                msg.NewGatewayPortNotOnWorkload r
                                  (k8s_labels.String
                                     (k8s_labels.SelectorFromSet
                                        (v1alpha3.Selector (resource.Message r))))
                                  (int (v1alpha3.Number port)))
                 | None => None
                 end)
              (v1alpha3.Servers (resource.Message r)).
Proof.
  intros Hd Hno Hsel. apply matchedPods_nil in Hno.
  split; [by apply resolvedServicePorts_system|].
  split; [apply dom_defaults|].
  rewrite analyzeGateway_resolution, resolution_system by done. simpl.
  rewrite (checkServers_spec r _ defaultIngressGatewayPorts_init).
  - simpl. by rewrite dom_defaults.
  - simpl. rewrite lookup_insert_ne; [done|].
    apply fresh_not_defaults. by rewrite Hd.
Qed.

Lemma system_gateway_checked_against_defaults_witness :
  sink (analyzeGateway (H := conjunctive.selectors)
          samples.gwE samples.snapshot init_state).2
  = [(collections.IstioNetworkingV1Alpha3Gateways,
      msg.NewGatewayPortNotOnWorkload samples.gwE "istio=ingressgateway" 8080)].
Proof.
  destruct (system_gateway_checked_against_defaults (H := conjunctive.selectors)
              samples.gwE samples.snapshot init_state) as (_ & _ & Hsink).
  - vm_compute. reflexivity.
  - intros rPod Hin Hsel.
    apply elem_of_cons in Hin as [->|Hin]; [by vm_compute in Hsel|].
    apply elem_of_cons in Hin as [->|Hin]; [by vm_compute in Hsel|].
    by apply elem_of_nil in Hin.
  - reflexivity.
  - rewrite Hsink. vm_compute. reflexivity.
Defined.

(** C4. Once [servicePorts] is resolved for a gateway, the run reports one
    GatewayPortNotOnWorkload for each listener that declares a port number
    that is not a key of [servicePorts], and nothing for any other listener.
    The diagnostics come in listener order, for the whole list of listeners:
    a failing listener does not end the check. *)
Theorem port_reported_iff_not_offered `{k8s_labels.Selectors}
    (r : resource.Instance v1alpha3.Gateway) (c : Context) (st : State)
    (ports : gmap Z bool) :
  resolvedServicePorts r c st = Some ports →
  sink (analyzeGateway r c st).2
  = sink st
    ++ omap (λ server,
               match v1alpha3.Port_ server with
               | Some port =>
                   if decide (v1alpha3.Number port ∈ dom ports) then None
                   else Some (collections.IstioNetworkingV1Alpha3Gateways,
                              msg.NewGatewayPortNotOnWorkload r
                                (k8s_labels.String
                                   (k8s_labels.SelectorFromSet
                                      (v1alpha3.Selector (resource.Message r))))
                                (int (v1alpha3.Number port)))
               | None => None
               end)
            (v1alpha3.Servers (resource.Message r)).
Proof.
  unfold resolvedServicePorts. intros Hres.
  rewrite analyzeGateway_resolution.
  destruct (resolution r c st).1 as [l|] eqn:Hl; [|done].
  rewrite (checkServers_spec r l ports) by done. simpl.
  by rewrite (resolution_sink r c st l).
Qed.

Lemma port_reported_iff_not_offered_witness :
  sink (analyzeGateway (H := conjunctive.selectors)
          samples.gwF samples.snapshot init_state).2
  = [(collections.IstioNetworkingV1Alpha3Gateways,
      msg.NewGatewayPortNotOnWorkload samples.gwF "app=gw" 443)].
Proof.
  rewrite (port_reported_iff_not_offered (H := conjunctive.selectors)
             samples.gwF samples.snapshot init_state
             (gset_to_gmap true {[ 80; 9090 ]})).
  - vm_compute. reflexivity.
  - vm_compute. reflexivity.
Defined.

(** ** Listeners without a port *)

Section Listeners.
Context `{k8s_labels.Selectors}.

(** The port diagnostics do not depend on the listeners of the resource they
    are attached to, except through that resource itself. *)
Lemma details_portDiagnostics r servers' S servers :
  details <$> portDiagnostics (withServers r servers') S servers
  = details <$> portDiagnostics r S servers.
Proof.
  unfold portDiagnostics.
  induction servers as [|server servers IH]; [done|].
  cbn [omap list_omap]. destruct (v1alpha3.Port_ server) as [port|]; [|done].
  destruct (decide (v1alpha3.Number port ∈ S)); [done|].
  rewrite !fmap_cons, IH. done.
Qed.

(** A listener without a port adds nothing to the port diagnostics. *)
Lemma portDiagnostics_skip r S xs server ys :
  v1alpha3.Port_ server = None →
  portDiagnostics r S (xs ++ server :: ys) = portDiagnostics r S (xs ++ ys).
Proof.
  intros Hp. unfold portDiagnostics. rewrite !omap_app.
  cbn [omap list_omap]. by rewrite Hp.
Qed.

Lemma discoverServicePorts_withServers r servers c st :
  discoverServicePorts (withServers r servers) c st = discoverServicePorts r c st.
Proof. by rewrite !discoverServicePorts_spec. Qed.

Lemma discoverServicePorts_sink r c st :
  sink (discoverServicePorts r c st).2 = sink st.
Proof. by rewrite discoverServicePorts_spec. Qed.

(** What a run adds to the sink, in every store. *)
Lemma reported_analyzeGateway r c st :
  reported (analyzeGateway r c) st
  = match (resolution r c st).1 with
    | Some l =>
        portDiagnostics r (keysAt l (resolution r c st).2)
          (v1alpha3.Servers (resource.Message r))
    | None => [selectorNotFound r]
    end
  ∧ sink (analyzeGateway r c st).2 = sink st ++ reported (analyzeGateway r c) st.
Proof.
  unfold reported. rewrite analyzeGateway_resolution.
  destruct (resolution r c st).1 as [l|] eqn:Hres.
  - rewrite checkServers_keysAt. simpl.
    rewrite (resolution_sink r c st l Hres).
    by rewrite drop_app_length.
  - revert Hres. unfold resolution, bind.
    rewrite discoverServicePorts_spec. unfold resolveServicePorts. simpl.
    destruct (_ =? 0); [|done]. destruct (notSystemSelector _); [|done].
    intros _. simpl. by rewrite drop_app_length.
Qed.

Lemma resolution_withServers r servers c st :
  (resolution (withServers r servers) c st).1 = (resolution r c st).1
  ∧ heap (resolution (withServers r servers) c st).2 = heap (resolution r c st).2.
Proof.
  unfold resolution, bind. rewrite discoverServicePorts_withServers.
  rewrite discoverServicePorts_spec. unfold resolveServicePorts. simpl.
  destruct (_ =? 0); [|done]. by destruct (notSystemSelector _).
Qed.

End Listeners.

(** C5. A listener entry with no declared port number never produces a
    diagnostic: for every gateway, the run reports the same kinds and the
    same details, in the same order, as it does for the gateway without that
    listener. *)
Theorem portless_listener_is_skipped `{k8s_labels.Selectors}
    (r : resource.Instance v1alpha3.Gateway) (c : Context) (st : State)
    (xs ys : list v1alpha3.Server) (server : v1alpha3.Server) :
  v1alpha3.Servers (resource.Message r) = xs ++ server :: ys →
  v1alpha3.Port_ server = None →
  sink (analyzeGateway r c st).2 = sink st ++ reported (analyzeGateway r c) st
  ∧ details <$> reported (analyzeGateway r c) st
    = details <$> reported (analyzeGateway (withServers r (xs ++ ys)) c) st.
Proof.
  intros Hservers Hp.
  split; [apply reported_analyzeGateway|].
  rewrite (proj1 (reported_analyzeGateway r c st)).
  rewrite (proj1 (reported_analyzeGateway (withServers r (xs ++ ys)) c st)).
  destruct (resolution_withServers r (xs ++ ys) c st) as [-> Hheap].
  destruct (resolution r c st).1 as [l|]; [|done].
  unfold keysAt. rewrite Hheap. simpl v1alpha3.Servers.
  rewrite Hservers, details_portDiagnostics.
  by rewrite portDiagnostics_skip.
Qed.

Lemma portless_listener_is_skipped_witness :
  sink (analyzeGateway (H := conjunctive.selectors)
          samples.gwF samples.snapshot init_state).2
  = sink init_state
    ++ reported (analyzeGateway (H := conjunctive.selectors)
                   samples.gwF samples.snapshot) init_state
  ∧ details <$> reported (analyzeGateway (H := conjunctive.selectors)
                          samples.gwF samples.snapshot) init_state
  = details <$> reported
      (analyzeGateway (H := conjunctive.selectors)
         (withServers samples.gwF
            ([ {| v1alpha3.Port_ := Some {| v1alpha3.Number := 80 |} |} ]
             ++ [ {| v1alpha3.Port_ := Some {| v1alpha3.Number := 443 |} |};
                  {| v1alpha3.Port_ := Some {| v1alpha3.Number := 9090 |} |} ]))
         samples.snapshot) init_state.
Proof.
  apply (portless_listener_is_skipped (H := conjunctive.selectors)
           samples.gwF samples.snapshot init_state
           [ {| v1alpha3.Port_ := Some {| v1alpha3.Number := 80 |} |} ]
           [ {| v1alpha3.Port_ := Some {| v1alpha3.Number := 443 |} |};
             {| v1alpha3.Port_ := Some {| v1alpha3.Number := 9090 |} |} ]
           {| v1alpha3.Port_ := None |}).
  - reflexivity.
  - reflexivity.
Defined.

(** ** Services in another namespace *)

Section Namespaces.
Context `{k8s_labels.Selectors}.

(** The service visitor never asks the iteration to stop. *)
Lemma visitService_continues l pod podLabels rSvc st :
  (visitService l pod podLabels rSvc tt st).1 = (true, tt).
Proof.
  unfold visitService. destruct (negb _); [done|].
  unfold bind. by destruct (_ st).
Qed.

Lemma visitService_other_namespace l pod podLabels rSvc st :
  resource.Namespace (resource.FullName_ (resource.Metadata_ rSvc))
    ≠ v1.Namespace (v1.ObjectMeta_ pod) →
  visitService l pod podLabels rSvc tt st = ((true, tt), st).
Proof.
  intros Hns. unfold visitService.
  apply String.eqb_neq in Hns. by rewrite Hns.
Qed.

Lemma ForEach_services_skip l pod podLabels svcs1 rSvc svcs2 st :
  resource.Namespace (resource.FullName_ (resource.Metadata_ rSvc))
    ≠ v1.Namespace (v1.ObjectMeta_ pod) →
  ForEach (svcs1 ++ rSvc :: svcs2) (visitService l pod podLabels) tt st
  = ForEach (svcs1 ++ svcs2) (visitService l pod podLabels) tt st.
Proof.
  intros Hns. revert st. induction svcs1 as [|rSvc1 svcs1 IH]; intros st.
  - simpl. unfold bind. by rewrite visitService_other_namespace.
  - simpl. unfold bind.
    pose proof (visitService_continues l pod podLabels rSvc1 st) as Hc.
    destruct (visitService l pod podLabels rSvc1 tt st) as [[b []] st1].
    simpl in Hc. injection Hc as ->. simpl. apply IH.
Qed.

End Namespaces.

(** C6. A service contributes ports for a matched workload only when its
    namespace equals the workload's namespace. For every workload and every
    service in a different namespace, whatever the selectors, visiting the
    service leaves the store as it is, [servicePorts] included, and asks
    for the next service; the scan of the services for that workload does
    the same as the scan without that service. *)
Theorem other_namespace_adds_no_port `{k8s_labels.Selectors}
    (servicePorts : Loc) (rPod : resource.Instance v1.Pod)
    (rSvc : resource.Instance v1.ServiceSpec) (st : State) :
  resource.Namespace (resource.FullName_ (resource.Metadata_ rSvc))
    ≠ v1.Namespace (v1.ObjectMeta_ (resource.Message rPod)) →
  visitService servicePorts (resource.Message rPod)
    (v1.Labels (v1.ObjectMeta_ (resource.Message rPod))) rSvc tt st
  = ((true, tt), st)
  ∧ ∀ svcs1 svcs2 : list (resource.Instance v1.ServiceSpec),
      ForEach (svcs1 ++ rSvc :: svcs2)
        (visitService servicePorts (resource.Message rPod)
           (v1.Labels (v1.ObjectMeta_ (resource.Message rPod)))) tt st
      = ForEach (svcs1 ++ svcs2)
          (visitService servicePorts (resource.Message rPod)
             (v1.Labels (v1.ObjectMeta_ (resource.Message rPod)))) tt st.
Proof.
  intros Hns. split.
  - by apply visitService_other_namespace.
  - intros svcs1 svcs2. by apply ForEach_services_skip.
Qed.

Lemma other_namespace_adds_no_port_witness :
  visitService (H := conjunctive.selectors) 2%positive
    (resource.Message (samples.pod "ns" "p1" samples.appGw))
    samples.appGw
    (samples.service "other" "s2" samples.appGw [("TCP", 443)]) tt
    (withPorts 2%positive ∅ init_state)
  = ((true, tt), withPorts 2%positive ∅ init_state)
  ∧ selects (H := conjunctive.selectors) samples.appGw samples.appGw.
Proof.
  split.
  - apply (other_namespace_adds_no_port (H := conjunctive.selectors) 2%positive
             (samples.pod "ns" "p1" samples.appGw)
             (samples.service "other" "s2" samples.appGw [("TCP", 443)])
             (withPorts 2%positive ∅ init_state)).
    simpl. discriminate.
  - vm_compute. exact I.
Defined.

(** ** Repeated runs and independent gateways *)

Section Passes.
Context `{k8s_labels.Selectors}.

Lemma defaults_intact_init : defaults_intact init_state.
Proof. unfold defaults_intact, init_state. simpl. apply lookup_singleton_eq. Qed.

Lemma defaults_intact_Analyze c st :
  defaults_intact st → defaults_intact (Analyze c st).2.
Proof. apply Analyze_frame. Qed.

Lemma reported_Analyze c st :
  Z.of_nat (length (Pods c)) < 2 ^ 63 →
  defaults_intact st →
  reported (Analyze c) st = concat ((λ r, gatewayDiagnostics r c) <$> Gateways c).
Proof.
  intros Hlen Hd. unfold reported. rewrite Analyze_sink by done.
  by rewrite drop_app_length.
Qed.

(** The resolved ports do not depend on the store, as long as the default
    table is in place. *)
Lemma resolvedServicePorts_stable r c st st' :
  Z.of_nat (length (Pods c)) < 2 ^ 63 →
  defaults_intact st → defaults_intact st' →
  resolvedServicePorts r c st' = resolvedServicePorts r c st.
Proof.
  intros Hlen Hd Hd'.
  destruct (matchedPods r c) as [|rPod matched] eqn:Hm.
  - destruct (decide (v1alpha3.Selector (resource.Message r) = systemSelector)).
    + by rewrite !resolvedServicePorts_system.
    + by rewrite !resolvedServicePorts_missing.
  - rewrite !resolvedServicePorts_matched; done || by rewrite Hm.
Qed.

(** The map built by the first phase, whatever the store. *)
Lemma discovered_ports r c st :
  heap (discoverServicePorts r c st).2 !! (discoverServicePorts r c st).1.1
  = Some (gset_to_gmap true (unionServicePorts r c)).
Proof. rewrite discoverServicePorts_spec. simpl. apply lookup_insert_eq. Qed.

Lemma gatewayDiagnostics_alone r c :
  Z.of_nat (length (Pods c)) < 2 ^ 63 →
  sink (Analyze (alone r c) init_state).2 = gatewayDiagnostics r c.
Proof.
  intros Hlen. rewrite Analyze_sink.
  - simpl. apply (right_id_L [] (++)).
  - done.
  - apply defaults_intact_init.
Qed.

Lemma portDiagnostics_empty r servers :
  portDiagnostics r ∅ servers
  = omap (λ server,
            (λ port, portNotOnWorkload r (v1alpha3.Number port))
              <$> v1alpha3.Port_ server) servers.
Proof.
  unfold portDiagnostics. induction servers as [|server servers IH]; [done|].
  cbn [omap list_omap]. rewrite IH.
  by destruct (v1alpha3.Port_ server) as [port|].
Qed.




End Passes.

(** C7. The analysis is deterministic and idempotent. A second run over the
    same snapshot, started in the store and with the sink the first run left
    behind, reports the same diagnostics again, kind by kind, resource by
    resource and detail by detail, and every gateway's [servicePorts] is
    built and resolved to the same map as in the first run. *)
Theorem analysis_is_repeatable `{k8s_labels.Selectors} (c : Context) (st : State) :
  Z.of_nat (length (Pods c)) < 2 ^ 63 →
  defaults_intact st →
  let st1 := (Analyze c st).2 in
  let st2 := (Analyze c st1).2 in
  sink st1 = sink st ++ reported (Analyze c) st
  ∧ sink st2 = sink st1 ++ reported (Analyze c) st1
  ∧ reported (Analyze c) st1 = reported (Analyze c) st
  ∧ ∀ r : resource.Instance v1alpha3.Gateway,
      resolvedServicePorts r c st1 = resolvedServicePorts r c st
      ∧ heap (discoverServicePorts r c st1).2 !! (discoverServicePorts r c st1).1.1
        = heap (discoverServicePorts r c st).2 !! (discoverServicePorts r c st).1.1.
Proof.
  intros Hlen Hd st1 st2.
  assert (Hd1 : defaults_intact st1) by by apply defaults_intact_Analyze.
  rewrite !reported_Analyze by done. subst st1 st2.
  split; [by apply Analyze_sink|].
  split; [by apply Analyze_sink|].
  split; [done|].
  intros r. split.
  - by apply resolvedServicePorts_stable.
  - by rewrite !discovered_ports.
Qed.

Lemma analysis_is_repeatable_witness :
  reported (Analyze (H := conjunctive.selectors) samples.snapshot)
    (Analyze (H := conjunctive.selectors) samples.snapshot init_state).2
  = reported (Analyze (H := conjunctive.selectors) samples.snapshot) init_state.
Proof.
  destruct (analysis_is_repeatable (H := conjunctive.selectors)
              samples.snapshot init_state) as (_ & _ & Hsame & _).
  - vm_compute. reflexivity.
  - vm_compute. reflexivity.
  - exact Hsame.
Defined.



(** C9. The fallback depends on the workload match count only, never on
    whether [servicePorts] is empty. For every gateway with at least one
    matching workload, where every port entry of every same-namespace
    service that selects a matched workload is not TCP (in particular when
    there is no such service), [servicePorts] stays empty, it is not
    replaced by the default table, and every listener with a declared port
    number produces a GatewayPortNotOnWorkload. *)
Theorem empty_servicePorts_is_no_fallback `{k8s_labels.Selectors}
    (r : resource.Instance v1alpha3.Gateway) (c : Context) (st : State) :
  Z.of_nat (length (Pods c)) < 2 ^ 63 →
  defaults_intact st →
  (∃ rPod, rPod ∈ Pods c
     ∧ selects (v1alpha3.Selector (resource.Message r))
         (v1.Labels (v1.ObjectMeta_ (resource.Message rPod)))) →
  (∀ rPod rSvc port,
     rPod ∈ Pods c →
     selects (v1alpha3.Selector (resource.Message r))
       (v1.Labels (v1.ObjectMeta_ (resource.Message rPod))) →
     rSvc ∈ Services c →
     resource.Namespace (resource.FullName_ (resource.Metadata_ rSvc))
       = v1.Namespace (v1.ObjectMeta_ (resource.Message rPod)) →
     selects (v1.Selector (resource.Message rSvc))
       (v1.Labels (v1.ObjectMeta_ (resource.Message rPod))) →
     port ∈ v1.Ports (resource.Message rSvc) →
     v1.Protocol port ≠ "TCP") →
  resolvedServicePorts r c st = Some ∅
  ∧ (resolution r c st).1 ≠ Some defaultIngressGatewayPorts
  ∧ sink (analyzeGateway r c st).2
    = sink st
      ++ omap (λ server,
                 (λ port,
                    (collections.IstioNetworkingV1Alpha3Gateways,
                     msg.NewGatewayPortNotOnWorkload r
                       (k8s_labels.String
                          (k8s_labels.SelectorFromSet
                             (v1alpha3.Selector (resource.Message r))))
                       (int (v1alpha3.Number port))))
                   <$> v1alpha3.Port_ server)
              (v1alpha3.Servers (resource.Message r)).
Proof.
  intros Hlen Hd (rPod0 & Hin0 & Hsel0) Hnotcp.
  assert (Hm : matchedPods r c ≠ []).
  { intros Hnil. by apply (proj1 (matchedPods_nil r c) Hnil rPod0). }
  assert (HU : unionServicePorts r c = ∅).
  { apply elem_of_equiv_empty_L. intros n Hn.
    apply elem_of_unionServicePorts in Hn as (rPod & Hpod & Hn).
    apply elem_of_matchedPods in Hpod as [Hpod Hsel].
    apply elem_of_podPorts in Hn as (rSvc & Hsvc & [Hns Hs] & Hn).
    apply elem_of_tcpPorts in Hn as (port & Hport & Htcp & _).
    by apply (Hnotcp rPod rSvc port). }
  assert (Hres : resolvedServicePorts r c st = Some ∅).
  { rewrite resolvedServicePorts_matched, HU by done.
    by rewrite gset_to_gmap_empty. }
  split; [done|]. split.
  - rewrite resolution_matched by done. simpl. intros [= Heq].
    revert Heq. apply fresh_not_defaults. by rewrite Hd.
  - rewrite analyzeGateway_resolution, resolution_matched by done. simpl.
    rewrite checkServers_keysAt. simpl. unfold keysAt. simpl.
    rewrite lookup_insert_eq, HU, gset_to_gmap_empty, dom_empty_L.
    by rewrite portDiagnostics_empty.
Qed.

Lemma empty_servicePorts_is_no_fallback_witness :
  sink (analyzeGateway (H := conjunctive.selectors)
          samples.gwF samples.unserved init_state).2
  = [(collections.IstioNetworkingV1Alpha3Gateways,
      msg.NewGatewayPortNotOnWorkload samples.gwF "app=gw" 80);
     (collections.IstioNetworkingV1Alpha3Gateways,
      msg.NewGatewayPortNotOnWorkload samples.gwF "app=gw" 443);
     (collections.IstioNetworkingV1Alpha3Gateways,
      msg.NewGatewayPortNotOnWorkload samples.gwF "app=gw" 9090)].
Proof.
  destruct (empty_servicePorts_is_no_fallback (H := conjunctive.selectors)
              samples.gwF samples.unserved init_state) as (_ & _ & Hsink).
  - vm_compute. reflexivity.
  - vm_compute. reflexivity.
  - exists (samples.pod "ns" "p1" samples.appGw). split.
    + apply list_elem_of_here.
    + vm_compute. exact I.
  - intros rPod rSvc port Hpod _ Hsvc Hns _ Hport.
    apply elem_of_cons in Hpod as [->|Hpod]; [|by apply elem_of_nil in Hpod].
    apply elem_of_cons in Hsvc as [->|Hsvc]; [discriminate Hns|].
    apply elem_of_cons in Hsvc as [->|Hsvc]; [|by apply elem_of_nil in Hsvc].
    apply elem_of_cons in Hport as [->|Hport]; [|by apply elem_of_nil in Hport].
    simpl. discriminate.
  - rewrite Hsink. vm_compute. reflexivity.
Defined.

(** C10. Evaluating a gateway never changes the default-ports table. Also
    when the fallback makes [servicePorts] refer to the table itself, the
    map is only read afterwards: after the evaluation of any gateway, and
    after a whole pass, the table is the map the package initialiser built,
    with the keys 80, 443, 31400 and 15443. *)
Theorem defaults_never_mutated `{k8s_labels.Selectors} (c : Context) (st : State) :
  heap st !! defaultIngressGatewayPorts = Some defaultIngressGatewayPorts_init →
  (∀ r : resource.Instance v1alpha3.Gateway,
     heap (analyzeGateway r c st).2 !! defaultIngressGatewayPorts
     = Some defaultIngressGatewayPorts_init)
  ∧ heap (Analyze c st).2 !! defaultIngressGatewayPorts
    = Some defaultIngressGatewayPorts_init
  ∧ dom defaultIngressGatewayPorts_init = ({[ 80; 443; 31400; 15443 ]} : gset Z).
Proof.
  intros Hd. split; [|split].
  - intros r. by apply analyzeGateway_frame.
  - by apply Analyze_frame.
  - apply dom_defaults.
Qed.

Lemma defaults_never_mutated_witness :
  (resolution (H := conjunctive.selectors)
     samples.gwC samples.snapshot init_state).1
  = Some defaultIngressGatewayPorts
  ∧ heap (analyzeGateway (H := conjunctive.selectors)
            samples.gwC samples.snapshot init_state).2
      !! defaultIngressGatewayPorts
    = Some defaultIngressGatewayPorts_init.
Proof.
  split.
  - vm_compute. reflexivity.
  - apply (defaults_never_mutated (H := conjunctive.selectors)
             samples.snapshot init_state).
    vm_compute. reflexivity.
Defined.

(** ** Port numbers in range *)

(** For a service whose port numbers are in the range of [uint32] (every
    valid port is), the stored numbers are the declared ones. *)
Lemma elem_of_tcpPorts_in_range `{k8s_labels.Selectors}
    (rSvc : resource.Instance v1.ServiceSpec) (n : Z) :
  (∀ port, port ∈ v1.Ports (resource.Message rSvc) → 0 ≤ v1.Port port < 2 ^ 32) →
  n ∈ tcpPorts rSvc
  ↔ ∃ port, port ∈ v1.Ports (resource.Message rSvc)
            ∧ v1.Protocol port = "TCP" ∧ v1.Port port = n.
Proof.
  intros Hrange. rewrite elem_of_tcpPorts. split.
  - intros (port & Hin & Htcp & Hn). exists port.
    rewrite uint32_small in Hn by by apply Hrange. done.
  - intros (port & Hin & Htcp & Hn). exists port.
    rewrite uint32_small by by apply Hrange. done.
Qed.

(** ** The scenarios of the specification *)

(** Scenario A: the service offers TCP 80, the listener asks for 443. *)
Example scenario_A :
  sink (analyzeGateway (H := conjunctive.selectors)
          samples.gwA samples.scenario init_state).2
  = [(collections.IstioNetworkingV1Alpha3Gateways,
      msg.NewGatewayPortNotOnWorkload samples.gwA "app=gw" 443)].
Proof. vm_compute. reflexivity. Qed.

(** Scenario B: the listener asks for 80. *)
Example scenario_B :
  sink (analyzeGateway (H := conjunctive.selectors)
          samples.gwB samples.scenario init_state).2 = [].
Proof. vm_compute. reflexivity. Qed.

(** Scenario C: the system selector, no workload, listener 31400. *)
Example scenario_C :
  sink (analyzeGateway (H := conjunctive.selectors)
          samples.gwC samples.scenario init_state).2 = [].
Proof. vm_compute. reflexivity. Qed.

(** Scenario D: an unknown selector, whatever the listeners. *)
Example scenario_D :
  sink (analyzeGateway (H := conjunctive.selectors)
          samples.gwD samples.scenario init_state).2
  = [(collections.IstioNetworkingV1Alpha3Gateways,
      msg.NewReferencedResourceNotFound samples.gwD "selector" "app=unknown")].
Proof. vm_compute. reflexivity. Qed.

(** The whole pass over the scenarios. *)
Example scenario_pass :
  sink (Analyze (H := conjunctive.selectors) samples.scenario init_state).2
  = [(collections.IstioNetworkingV1Alpha3Gateways,
      msg.NewGatewayPortNotOnWorkload samples.gwA "app=gw" 443);
     (collections.IstioNetworkingV1Alpha3Gateways,
      msg.NewReferencedResourceNotFound samples.gwD "selector" "app=unknown")].
Proof. vm_compute. reflexivity. Qed.

(** ** Further properties of the analyzer *)

Section Further.
Context `{k8s_labels.Selectors}.

(** What a run reports for a gateway with a matched workload. *)
Lemma reported_matched r c st :
  Z.of_nat (length (Pods c)) < 2 ^ 63 →
  matchedPods r c ≠ [] →
  reported (analyzeGateway r c) st
  = portDiagnostics r (unionServicePorts r c)
      (v1alpha3.Servers (resource.Message r)).
Proof.
  intros Hlen Hm. rewrite (proj1 (reported_analyzeGateway r c st)).
  rewrite resolution_matched by done. simpl. unfold keysAt. simpl.
  by rewrite lookup_insert_eq, dom_gset_to_gmap.
Qed.

(** The run depends on the snapshot only through whether a workload matched
    and through the union of the offered ports. *)
Lemma analyzeGateway_ext r c c' st :
  Z.of_nat (length (Pods c)) < 2 ^ 63 →
  Z.of_nat (length (Pods c')) < 2 ^ 63 →
  (matchedPods r c = [] ↔ matchedPods r c' = []) →
  unionServicePorts r c = unionServicePorts r c' →
  analyzeGateway r c st = analyzeGateway r c' st.
Proof.
  intros Hlen Hlen' Hnil HU. rewrite !analyzeGateway_resolution.
  destruct (matchedPods r c) as [|rPod matched] eqn:Hm.
  - assert (Hm' : matchedPods r c' = []) by by apply Hnil.
    destruct (decide (v1alpha3.Selector (resource.Message r) = systemSelector)).
    + by rewrite !resolution_system.
    + by rewrite !resolution_missing.
  - assert (Hm1 : matchedPods r c ≠ []) by by rewrite Hm.
    assert (Hm' : matchedPods r c' ≠ []).
    { intros Hm'. by apply Hnil in Hm'. }
    by rewrite !resolution_matched, HU.
Qed.

Lemma nil_iff_same_elements {A} (l l' : list A) :
  (∀ x, x ∈ l ↔ x ∈ l') → (l = [] ↔ l' = []).
Proof.
  intros Hsame. split; intros ->.
  - destruct l' as [|x l']; [done|].
    exfalso. apply (elem_of_nil x), Hsame. left.
  - destruct l as [|x l]; [done|].
    exfalso. apply (elem_of_nil x), Hsame. left.
Qed.

Lemma unionServicePorts_mono r c c' :
  (∀ rPod, rPod ∈ Pods c → rPod ∈ Pods c') →
  (∀ rSvc, rSvc ∈ Services c → rSvc ∈ Services c') →
  unionServicePorts r c ⊆ unionServicePorts r c'.
Proof.
  intros Hpods Hsvcs n. rewrite !elem_of_unionServicePorts.
  intros (rPod & Hpod & Hn). exists rPod. split.
  - apply elem_of_matchedPods in Hpod as [Hpod Hsel].
    apply elem_of_matchedPods. auto.
  - apply elem_of_podPorts in Hn as (rSvc & Hsvc & Hs & Hn).
    apply elem_of_podPorts. exists rSvc. auto.
Qed.

(** A larger set of offered ports leaves fewer listeners to report. *)
Lemma portDiagnostics_antitone r (S S' : gset Z) servers :
  S ⊆ S' →
  portDiagnostics r S' servers `sublist_of` portDiagnostics r S servers.
Proof.
  intros Hsub. unfold portDiagnostics.
  induction servers as [|server servers IH]; [constructor|].
  cbn [omap list_omap]. destruct (v1alpha3.Port_ server) as [port|]; [|done].
  destruct (decide (v1alpha3.Number port ∈ S')) as [Hin'|Hin'];
    destruct (decide (v1alpha3.Number port ∈ S)) as [Hin|Hin].
  - done.
  - by apply sublist_cons.
  - exfalso. apply Hin'. by apply Hsub.
  - by apply sublist_skip.
Qed.

(** The workload visitor never asks the iteration to stop. *)
Lemma visitPod_continues c l gwSelector rPod n st :
  (visitPod c l gwSelector rPod n st).1.1 = true.
Proof.
  unfold visitPod. destruct (k8s_labels.Matches _ _); [|done].
  unfold bind. by destruct (ForEach _ _ _ st).
Qed.

Lemma ForEach_pods_skip c l gwSelector pods1 rPod pods2 n st :
  k8s_labels.Matches gwSelector
    (v1.Labels (v1.ObjectMeta_ (resource.Message rPod))) = false →
  ForEach (pods1 ++ rPod :: pods2) (visitPod c l gwSelector) n st
  = ForEach (pods1 ++ pods2) (visitPod c l gwSelector) n st.
Proof.
  intros Hno. revert n st. induction pods1 as [|rPod1 pods1 IH]; intros n st.
  - simpl. unfold bind at 1. unfold visitPod at 1. by rewrite Hno.
  - simpl. unfold bind.
    pose proof (visitPod_continues c l gwSelector rPod1 n st) as Hc.
    destruct (visitPod c l gwSelector rPod1 n st) as [[b n1] st1].
    simpl in Hc. subst b. simpl. apply IH.
Qed.

Lemma resolution_same_selector r r' c st :
  v1alpha3.Selector (resource.Message r') = v1alpha3.Selector (resource.Message r) →
  (resolution r' c st).1 = (resolution r c st).1
  ∧ heap (resolution r' c st).2 = heap (resolution r c st).2.
Proof.
  intros Hsel. unfold resolution, bind. rewrite !discoverServicePorts_spec.
  unfold resolveServicePorts, unionServicePorts, matchedPods. simpl.
  rewrite Hsel. destruct (_ =? 0); [|done]. by destruct (notSystemSelector _).
Qed.

Lemma details_portDiagnostics_same r r' S servers :
  v1alpha3.Selector (resource.Message r') = v1alpha3.Selector (resource.Message r) →
  details <$> portDiagnostics r' S servers = details <$> portDiagnostics r S servers.
Proof.
  intros Hsel. unfold portDiagnostics.
  induction servers as [|server servers IH]; [done|].
  cbn [omap list_omap]. destruct (v1alpha3.Port_ server) as [port|]; [|done].
  destruct (decide (v1alpha3.Number port ∈ S)); [done|].
  rewrite !fmap_cons, IH. f_equal.
  unfold details, portNotOnWorkload. simpl. by rewrite Hsel.
Qed.

(** The reports of a pass, in every store. *)
Lemma ForEach_gateways_reports c gws st :
  ∃ ds,
    sink (ForEach gws
            (λ r _, let* _ := analyzeGateway r c in ret (true, tt)) tt st).2
    = sink st ++ ds
    ∧ ∀ d, d ∈ ds →
        d.1 = collections.IstioNetworkingV1Alpha3Gateways
        ∧ diag.Resource d.2 ∈ gws.
Proof.
  revert st. induction gws as [|r gws IH]; intros st.
  - exists []. simpl. split; [by rewrite (right_id_L [] (++))|].
    intros d Hd. by apply elem_of_nil in Hd.
  - rewrite ForEach_gateways_cons.
    destruct (IH (analyzeGateway r c st).2) as (ds & Hs & Hds).
    destruct (reported_analyzeGateway r c st) as [Hrep Hsink].
    exists (reported (analyzeGateway r c) st ++ ds). split.
    + by rewrite Hs, Hsink, (assoc_L (++)).
    + intros d Hd. apply elem_of_app in Hd as [Hd|Hd].
      * rewrite Hrep in Hd. destruct (resolution r c st).1 as [l|].
        -- apply elem_of_portDiagnostics in Hd as (server & port & _ & _ & _ & ->).
           simpl. split; [done|left].
        -- apply list_elem_of_singleton in Hd as ->. simpl. split; [done|left].
      * destruct (Hds d Hd) as [Hc Hr]. split; [done|by right].
Qed.

End Further.

(** X1. A pass only adds to the sink, and everything it adds is reported in
    the gateway collection, on a gateway of the snapshot: no diagnostic is
    ever attached to a workload, a service or a resource from elsewhere. *)
Theorem reports_only_on_snapshot_gateways `{k8s_labels.Selectors}
    (c : Context) (st : State) :
  sink (Analyze c st).2 = sink st ++ reported (Analyze c) st
  ∧ ∀ d, d ∈ reported (Analyze c) st →
      d.1 = collections.IstioNetworkingV1Alpha3Gateways
      ∧ diag.Resource d.2 ∈ Gateways c.
Proof.
  destruct (ForEach_gateways_reports c (Gateways c) st) as (ds & Hs & Hds).
  assert (Hsink : sink (Analyze c st).2 = sink st ++ ds).
  { unfold Analyze, bind. by destruct (ForEach (Gateways c) _ tt st). }
  unfold reported. rewrite Hsink, drop_app_length. done.
Qed.

(** X2. The union semantics of the comment in [analyzeGateway]: the
    validator does not report a listener port if any service selecting any
    matched workload, in that workload's namespace, exposes it over TCP. *)
Theorem offered_port_is_not_reported `{k8s_labels.Selectors}
    (r : resource.Instance v1alpha3.Gateway) (c : Context) (st : State)
    (rPod : resource.Instance v1.Pod) (rSvc : resource.Instance v1.ServiceSpec)
    (port : v1.ServicePort) :
  Z.of_nat (length (Pods c)) < 2 ^ 63 →
  (∀ server p, server ∈ v1alpha3.Servers (resource.Message r) →
     v1alpha3.Port_ server = Some p → 0 ≤ v1alpha3.Number p < 2 ^ 32) →
  rPod ∈ Pods c →
  selects (v1alpha3.Selector (resource.Message r))
    (v1.Labels (v1.ObjectMeta_ (resource.Message rPod))) →
  rSvc ∈ Services c →
  resource.Namespace (resource.FullName_ (resource.Metadata_ rSvc))
    = v1.Namespace (v1.ObjectMeta_ (resource.Message rPod)) →
  selects (v1.Selector (resource.Message rSvc))
    (v1.Labels (v1.ObjectMeta_ (resource.Message rPod))) →
  port ∈ v1.Ports (resource.Message rSvc) →
  v1.Protocol port = "TCP" →
  (collections.IstioNetworkingV1Alpha3Gateways,
   msg.NewGatewayPortNotOnWorkload r
     (k8s_labels.String
        (k8s_labels.SelectorFromSet (v1alpha3.Selector (resource.Message r))))
     (int (uint32 (v1.Port port))))
  ∉ reported (analyzeGateway r c) st.
Proof.
  intros Hlen Hrange Hpod Hsel Hsvc Hns Hs Hport Htcp Hd.
  assert (Hm : matchedPods r c ≠ []).
  { intros Hnil. by apply (proj1 (matchedPods_nil r c) Hnil rPod). }
  assert (HU : uint32 (v1.Port port) ∈ unionServicePorts r c).
  { apply elem_of_unionServicePorts. exists rPod.
    split; [by apply elem_of_matchedPods|].
    apply elem_of_podPorts. exists rSvc. split; [done|]. split; [done|].
    apply elem_of_tcpPorts. by exists port. }
  rewrite reported_matched in Hd by done.
  apply elem_of_portDiagnostics in Hd as (server & p & Hin & Hp & Hnot & Heq).
  apply Hnot. unfold portNotOnWorkload, msg.NewGatewayPortNotOnWorkload in Heq.
  injection Heq as Heq.
  pose proof (Hrange server p Hin Hp) as Hr.
  assert (Hu : 0 ≤ uint32 (v1.Port port) < 2 ^ 32)
    by (unfold uint32; apply Z.mod_pos_bound; lia).
  rewrite !int_small in Heq by lia. by rewrite <- Heq.
Qed.

Lemma offered_port_is_not_reported_witness :
  (collections.IstioNetworkingV1Alpha3Gateways,
   msg.NewGatewayPortNotOnWorkload samples.gwF "app=gw" 9090)
  ∉ reported (analyzeGateway (H := conjunctive.selectors)
                samples.gwF samples.snapshot) init_state.
Proof.
  apply (offered_port_is_not_reported (H := conjunctive.selectors)
           samples.gwF samples.snapshot init_state
           (samples.pod "ns" "p1" samples.appGw)
           (samples.service "ns" "s3" ∅ [("TCP", 9090)])
           {| v1.Protocol := "TCP"; v1.Port := 9090 |}).
  - vm_compute. reflexivity.
  - intros server p Hin Hp.
    apply elem_of_cons in Hin as [->|Hin]; [injection Hp as <-; simpl; lia|].
    apply elem_of_cons in Hin as [->|Hin]; [discriminate Hp|].
    apply elem_of_cons in Hin as [->|Hin]; [injection Hp as <-; simpl; lia|].
    apply elem_of_cons in Hin as [->|Hin]; [injection Hp as <-; simpl; lia|].
    by apply elem_of_nil in Hin.
  - apply list_elem_of_here.
  - vm_compute. exact I.
  - apply list_elem_of_further, list_elem_of_further, list_elem_of_here.
  - reflexivity.
  - vm_compute. exact I.
  - apply list_elem_of_here.
  - reflexivity.
Defined.

(** X3. The iteration order of the workloads and of the services, and
    repeated entries among them, do not matter: two snapshots with the same
    workloads and the same services, listed in any order and any number of
    times, make [analyzeGateway] return the same store and the same sink. *)
Theorem analysis_depends_on_sets `{k8s_labels.Selectors}
    (r : resource.Instance v1alpha3.Gateway) (c c' : Context) (st : State) :
  Z.of_nat (length (Pods c)) < 2 ^ 63 →
  Z.of_nat (length (Pods c')) < 2 ^ 63 →
  (∀ rPod, rPod ∈ Pods c ↔ rPod ∈ Pods c') →
  (∀ rSvc, rSvc ∈ Services c ↔ rSvc ∈ Services c') →
  analyzeGateway r c st = analyzeGateway r c' st.
Proof.
  intros Hlen Hlen' Hpods Hsvcs. apply analyzeGateway_ext; [done|done| |].
  - apply nil_iff_same_elements. intros rPod.
    rewrite !elem_of_matchedPods. by rewrite Hpods.
  - apply leibniz_equiv, (anti_symm (⊆)).
    + apply unionServicePorts_mono; intros x; [apply Hpods|apply Hsvcs].
    + apply unionServicePorts_mono; intros x; [apply Hpods|apply Hsvcs].
Qed.

Lemma analysis_depends_on_sets_witness :
  analyzeGateway (H := conjunctive.selectors) samples.gwF samples.scenario init_state
  = analyzeGateway (H := conjunctive.selectors) samples.gwF
      {| Gateways := [];
         Pods := [samples.pod "ns" "p1" samples.appGw;
                  samples.pod "ns" "p1" samples.appGw];
         Services := [samples.service "ns" "s1" samples.appGw [("TCP", 80)]] |}
      init_state.
Proof.
  apply (analysis_depends_on_sets (H := conjunctive.selectors)).
  - vm_compute. reflexivity.
  - vm_compute. reflexivity.
  - intros rPod. simpl. rewrite !elem_of_cons. tauto.
  - intros rSvc. reflexivity.
Defined.

(** X4. A workload that the gateway's selector does not match has no
    influence on the evaluation of that gateway: without it in the snapshot,
    [analyzeGateway] returns the same store and the same sink. *)
Theorem unmatched_workload_is_inert `{k8s_labels.Selectors}
    (r : resource.Instance v1alpha3.Gateway) (c : Context) (st : State)
    (pods1 pods2 : list (resource.Instance v1.Pod))
    (rPod : resource.Instance v1.Pod) :
  Pods c = pods1 ++ rPod :: pods2 →
  ¬ selects (v1alpha3.Selector (resource.Message r))
      (v1.Labels (v1.ObjectMeta_ (resource.Message rPod))) →
  analyzeGateway r c st = analyzeGateway r (withPods c (pods1 ++ pods2)) st.
Proof.
  intros Hpods Hsel. unfold selects in Hsel. apply Is_true_false in Hsel.
  unfold analyzeGateway, discoverServicePorts, bind. simpl Pods.
  rewrite Hpods. destruct (newMap st) as [l st1].
  by rewrite (ForEach_pods_skip c l _ pods1 rPod pods2).
Qed.

Lemma unmatched_workload_is_inert_witness :
  analyzeGateway (H := conjunctive.selectors) samples.gwF samples.snapshot init_state
  = analyzeGateway (H := conjunctive.selectors) samples.gwF
      (withPods samples.snapshot ([samples.pod "ns" "p1" samples.appGw] ++ []))
      init_state.
Proof.
  apply (unmatched_workload_is_inert (H := conjunctive.selectors)
           samples.gwF samples.snapshot init_state
           [samples.pod "ns" "p1" samples.appGw] []
           (samples.pod "other" "p2" {[ "app" := "db" ]})).
  - reflexivity.
  - intros Hsel. by vm_compute in Hsel.
Defined.

(** X5. For a gateway that already has a matched workload, adding workloads
    or services to the snapshot never adds a port diagnostic: what is
    reported on the larger snapshot is a sub-list of what is reported on the
    smaller one. *)
Theorem more_resources_fewer_port_reports `{k8s_labels.Selectors}
    (r : resource.Instance v1alpha3.Gateway) (c c' : Context) (st : State) :
  Z.of_nat (length (Pods c)) < 2 ^ 63 →
  Z.of_nat (length (Pods c')) < 2 ^ 63 →
  (∃ rPod, rPod ∈ Pods c
     ∧ selects (v1alpha3.Selector (resource.Message r))
         (v1.Labels (v1.ObjectMeta_ (resource.Message rPod)))) →
  (∀ rPod, rPod ∈ Pods c → rPod ∈ Pods c') →
  (∀ rSvc, rSvc ∈ Services c → rSvc ∈ Services c') →
  reported (analyzeGateway r c') st `sublist_of` reported (analyzeGateway r c) st.
Proof.
  intros Hlen Hlen' (rPod & Hpod & Hsel) Hpods Hsvcs.
  assert (Hm : matchedPods r c ≠ []).
  { intros Hnil. by apply (proj1 (matchedPods_nil r c) Hnil rPod). }
  assert (Hm' : matchedPods r c' ≠ []).
  { intros Hnil. apply (proj1 (matchedPods_nil r c') Hnil rPod); auto. }
  rewrite !reported_matched by done.
  by apply portDiagnostics_antitone, unionServicePorts_mono.
Qed.

Lemma more_resources_fewer_port_reports_witness :
  reported (analyzeGateway (H := conjunctive.selectors) samples.gwF
              {| Gateways := [];
                 Pods := Pods samples.scenario
                         ++ [samples.pod "other" "p2" {[ "app" := "db" ]}];
                 Services := Services samples.scenario
                             ++ [samples.service "ns" "s3" ∅ [("TCP", 9090)]] |})
    init_state
  `sublist_of`
  reported (analyzeGateway (H := conjunctive.selectors)
              samples.gwF samples.scenario) init_state.
Proof.
  apply (more_resources_fewer_port_reports (H := conjunctive.selectors)
           samples.gwF samples.scenario).
  - vm_compute. reflexivity.
  - vm_compute. reflexivity.
  - exists (samples.pod "ns" "p1" samples.appGw). split.
    + apply list_elem_of_here.
    + vm_compute. exact I.
  - intros rPod Hin. cbn [Pods]. apply elem_of_app. by left.
  - intros rSvc Hin. cbn [Services]. apply elem_of_app. by left.
Defined.

(** X6. A gateway never gets both kinds of diagnostic. Either the run
    reports the single missing-selector diagnostic and nothing else, or it
    reports port diagnostics only: at most one per listener that declares a
    port, in listener order. In particular a gateway without listeners
    yields at most the missing-selector diagnostic. *)
Theorem one_kind_per_gateway `{k8s_labels.Selectors}
    (r : resource.Instance v1alpha3.Gateway) (c : Context) (st : State) :
  reported (analyzeGateway r c) st
  = [(collections.IstioNetworkingV1Alpha3Gateways,
      msg.NewReferencedResourceNotFound r "selector"
        (k8s_labels.String
           (k8s_labels.SelectorFromSet (v1alpha3.Selector (resource.Message r)))))]
  ∨ reported (analyzeGateway r c) st
    `sublist_of`
    omap (λ server,
            (λ port,
               (collections.IstioNetworkingV1Alpha3Gateways,
                msg.NewGatewayPortNotOnWorkload r
                  (k8s_labels.String
                     (k8s_labels.SelectorFromSet
                        (v1alpha3.Selector (resource.Message r))))
                  (int (v1alpha3.Number port))))
              <$> v1alpha3.Port_ server)
         (v1alpha3.Servers (resource.Message r)).
Proof.
  rewrite (proj1 (reported_analyzeGateway r c st)).
  destruct (resolution r c st).1 as [l|]; [right|by left].
  pose proof (portDiagnostics_antitone r ∅ (keysAt l (resolution r c st).2)
                (v1alpha3.Servers (resource.Message r))) as Hsub.
  rewrite portDiagnostics_empty in Hsub. apply Hsub.
  apply empty_subseteq.
Qed.

Section Allocation.
Context `{k8s_labels.Selectors}.

Lemma ForEach_gateways_heap c gws st :
  heap st ⊆ heap (ForEach gws
                    (λ r _, let* _ := analyzeGateway r c in ret (true, tt)) tt st).2
  ∧ size (heap (ForEach gws
                  (λ r _, let* _ := analyzeGateway r c in ret (true, tt)) tt st).2)
    = (size (heap st) + length gws)%nat.
Proof.
  revert st. induction gws as [|r gws IH]; intros st.
  - simpl. split; [done|lia].
  - rewrite ForEach_gateways_cons.
    destruct (IH (analyzeGateway r c st).2) as [Hsub Hsize].
    assert (Hfresh : heap st !! fresh (dom (heap st)) = None)
      by apply not_elem_of_dom, is_fresh.
    rewrite analyzeGateway_heap in Hsub, Hsize. split.
    + etrans; [|exact Hsub]. by apply insert_subseteq.
    + rewrite Hsize, map_size_insert_None by done. simpl. lia.
Qed.

End Allocation.

(** X7. A pass never changes or removes a map that was in the store before
    it started; it allocates exactly one new map for each gateway of the
    snapshot. *)
Theorem pass_only_allocates `{k8s_labels.Selectors} (c : Context) (st : State) :
  heap st ⊆ heap (Analyze c st).2
  ∧ size (heap (Analyze c st).2) = (size (heap st) + length (Gateways c))%nat.
Proof.
  pose proof (ForEach_gateways_heap c (Gateways c) st) as Hh.
  unfold Analyze, bind. by destruct (ForEach (Gateways c) _ tt st).
Qed.

(** X8. The test that guards the fallback,
    [len(gw.Selector) != 1 || gw.Selector["istio"] != "ingressgateway"],
    is false for exactly one selector: the map whose only entry is
    "istio" = "ingressgateway". A selector without the key "istio" reads as
    the empty string there and fails the test, and so does one that has the
    entry together with any other key. *)
Theorem fallback_test_is_exact (sel : gmap string string) :
  (notSystemSelector sel = false ↔ sel = {[ "istio" := "ingressgateway" ]})
  ∧ (sel !! "istio" = None → notSystemSelector sel = true)
  ∧ (∀ k v, k ≠ "istio" → sel !! k = Some v → notSystemSelector sel = true).
Proof.
  split; [apply notSystemSelector_false|]. split.
  - intros Hnone. apply notSystemSelector_true. intros ->.
    unfold systemSelector in Hnone. by rewrite lookup_singleton_eq in Hnone.
  - intros k v Hk Hl. apply notSystemSelector_true. intros ->.
    unfold systemSelector in Hl. by rewrite lookup_singleton_ne in Hl.
Qed.

Lemma fallback_test_is_exact_witness :
  notSystemSelector {[ "istio" := "ingressgateway"; "app" := "gw" ]} = true.
Proof.
  apply (proj2 (proj2 (fallback_test_is_exact
                         {[ "istio" := "ingressgateway"; "app" := "gw" ]}))
           "app" "gw").
  - discriminate.
  - vm_compute. reflexivity.
Defined.

(** X9. The gateway's own name and namespace play no part: workloads are
    matched in every namespace, and two gateway resources with the same
    payload get diagnostics of the same kinds with the same details. *)
Theorem gateway_metadata_is_irrelevant `{k8s_labels.Selectors}
    (r r' : resource.Instance v1alpha3.Gateway) (c : Context) (st : State) :
  resource.Message r' = resource.Message r →
  details <$> reported (analyzeGateway r' c) st
  = details <$> reported (analyzeGateway r c) st.
Proof.
  intros Hmsg.
  assert (Hsel : v1alpha3.Selector (resource.Message r')
                 = v1alpha3.Selector (resource.Message r)) by by rewrite Hmsg.
  rewrite (proj1 (reported_analyzeGateway r c st)).
  rewrite (proj1 (reported_analyzeGateway r' c st)).
  destruct (resolution_same_selector r r' c st Hsel) as [-> Hheap].
  destruct (resolution r c st).1 as [l|].
  - unfold keysAt. rewrite Hheap, Hmsg.
    by apply details_portDiagnostics_same.
  - unfold details, selectorNotFound. simpl. by rewrite Hsel.
Qed.

Lemma gateway_metadata_is_irrelevant_witness :
  details <$> reported
    (analyzeGateway (H := conjunctive.selectors)
       {| resource.Metadata_ :=
            {| resource.FullName_ :=
                 {| resource.Namespace := "elsewhere"; resource.Name := "g" |} |};
          resource.Message := resource.Message samples.gwF |}
       samples.snapshot) init_state
  = details <$> reported (analyzeGateway (H := conjunctive.selectors)
                            samples.gwF samples.snapshot) init_state.
Proof.
  apply (gateway_metadata_is_irrelevant (H := conjunctive.selectors)).
  reflexivity.
Defined.

(** X10. When the scan of the workloads ends, [gwSelectorMatches] holds the
    number of workloads the gateway's selector matches, and the sink is as
    it was: the first phase reports nothing. *)
Theorem gwSelectorMatches_counts_matches `{k8s_labels.Selectors}
    (r : resource.Instance v1alpha3.Gateway) (c : Context) (st : State) :
  Z.of_nat (length (Pods c)) < 2 ^ 63 →
  (discoverServicePorts r c st).1.2
  = Z.of_nat (length (filter
                        (λ rPod, selects (v1alpha3.Selector (resource.Message r))
                                   (v1.Labels (v1.ObjectMeta_ (resource.Message rPod))))
                        (Pods c)))
  ∧ sink (discoverServicePorts r c st).2 = sink st.
Proof.
  intros Hlen. rewrite discoverServicePorts_spec. simpl. split; [|done].
  assert (Hle : (length (matchedPods r c) ≤ length (Pods c))%nat)
    by apply length_filter.
  rewrite count_exact by lia. unfold matchedPods. lia.
Qed.

Lemma gwSelectorMatches_counts_matches_witness :
  (discoverServicePorts (H := conjunctive.selectors)
     samples.gwA samples.snapshot init_state).1.2 = 1.
Proof.
  destruct (gwSelectorMatches_counts_matches (H := conjunctive.selectors)
              samples.gwA samples.snapshot init_state) as [Hcount _].
  - vm_compute. reflexivity.
  - rewrite Hcount. vm_compute. reflexivity.
Defined.

Section Batches.
Context `{k8s_labels.Selectors}.

Lemma ForEach_gateways_app c gws1 gws2 st :
  ForEach (gws1 ++ gws2)
    (λ r _, let* _ := analyzeGateway r c in ret (true, tt)) tt st
  = ForEach gws2
      (λ r _, let* _ := analyzeGateway r c in ret (true, tt)) tt
      (ForEach gws1
         (λ r _, let* _ := analyzeGateway r c in ret (true, tt)) tt st).2.
Proof.
  revert st. induction gws1 as [|r gws1 IH]; intros st; [done|].
  rewrite <- app_comm_cons, !ForEach_gateways_cons. apply IH.
Qed.

(** [analyzeGateway] does not look at the gateway collection. *)
Lemma Analyze_withGateways c gws st :
  (Analyze (withGateways c gws) st).2
  = (ForEach gws
       (λ r _, let* _ := analyzeGateway r c in ret (true, tt)) tt st).2.
Proof.
  change (Analyze (withGateways c gws) st)
    with (bind (ForEach gws
                  (λ r _, let* _ := analyzeGateway r c in ret (true, tt)) tt)
               (λ _, ret tt) st).
  unfold bind at 1. by destruct (ForEach gws _ tt st).
Qed.

End Batches.

(** X11. A pass can be run in batches: analysing the gateways of one list
    and then, in the store and with the sink left behind, those of a second
    list gives the same store and the same sink as one pass over both lists
    in that order. *)
Theorem pass_in_batches `{k8s_labels.Selectors} (c : Context) (st : State)
    (gws1 gws2 : list (resource.Instance v1alpha3.Gateway)) :
  (Analyze (withGateways c (gws1 ++ gws2)) st).2
  = (Analyze (withGateways c gws2) (Analyze (withGateways c gws1) st).2).2.
Proof.
  rewrite !Analyze_withGateways. by rewrite ForEach_gateways_app.
Qed.
